(** * Intelligent range map: the energy model and the isodistance reconciler

    A shallow embedding of [scripts/ev_range_calculator.py].

    Numbers.  The script computes with Python floats.  They are modelled by
    exact rationals ([Q]): every arithmetic step is the one of the source,
    without rounding, overflow, infinities or NaN.  Equality of results is
    [Qeq] ([==]), the equality of the numbers denoted.

    Where the floats leave the rationals.  A float operation that overflows
    gives an infinity, and [effective_v ** 2] raises [OverflowError]; a
    difference is rounded, so that [abs(vd - d) < 1.0] can hold of two
    decimals written 1.0 apart.  The properties of the energy model are
    therefore stated for inputs of a magnitude up to [Domain.LIMIT], where
    no step overflows, and those of the reconciler for distances that are
    [Spec.well_separated], where the rounded comparison and the exact one
    agree and two distances have the same float only when they are the
    same.  The conversion of an int beyond the floats, by [float] or by a
    [:.1f] format, raises [OverflowError] in the model as in the script.

    Errors.  A Python exception is a value of [exn]; a computation that may
    raise returns [result A].  [try]/[except] is [try_except].

    Logging.  The log lines are left out, except where formatting one
    evaluates an expression that can raise.

    The outside world.  The routing engine is a function [post] from the
    request to what [requests.post] returns or raises; [main_bands] returns,
    with the bands, the requests it posted. *)

From Stdlib Require Import QArith Qabs Qround Qminmax Lqa ZArith Lia List String Bool
  SetoidList.
From stdpp Require Import base list.
Import ListNotations.

Open Scope Q_scope.

(** ** Python values and control *)
Module Py.

(** The exception classes the script can meet. *)
Inductive exn : Type :=
| ZeroDivisionError
| ConnectionError      (* requests.exceptions.ConnectionError *)
| HTTPError            (* requests.exceptions.HTTPError *)
| RequestException     (* any other requests failure, e.g. a timeout *)
| JSONDecodeError
| AttributeError
| TypeError
| ValueError
| KeyError
| IndexError
| OverflowError.

Inductive result (A : Type) : Type :=
| Ok (a : A)
| Raise (e : exn).
Arguments Ok {A} a.
Arguments Raise {A} e.

Definition ret {A} (a : A) : result A := Ok a.

Definition bind {A B} (m : result A) (k : A -> result B) : result B :=
  match m with
  | Ok a => k a
  | Raise e => Raise e
  end.

(** [try: body except e: handler e]. A handler that declines an exception
    re-raises it. *)
Definition try_except {A} (body : result A) (handler : exn -> result A)
  : result A :=
  match body with
  | Ok a => Ok a
  | Raise e => handler e
  end.

(** [max(a, b)] on two numbers: the first argument unless the second is
    strictly larger. *)
Definition max (a b : Q) : Q := if Qlt_le_dec a b then b else a.

(** [a / b], raising on a zero divisor. *)
Definition div (a b : Q) : result Q :=
  if Qeq_bool b 0 then Raise ZeroDivisionError else Ok (a / b).

(** Rounding to the nearest integer, ties to even. *)
Definition round_half_even (x : Q) : Z :=
  let f := Qfloor x in
  let r := x - inject_Z f in
  if Qlt_le_dec r (1 # 2) then f
  else if Qlt_le_dec (1 # 2) r then (f + 1)%Z
       else if Z.even f then f else (f + 1)%Z.

(** [round(x, 1)]. *)
Definition round1 (x : Q) : Q := inject_Z (round_half_even (x * 10)) / 10.

(** The least magnitude of an int that has no float: halfway between the
    largest float, [2^1024 - 2^971], and [2^1024].  Converting such an int
    raises [OverflowError]. *)
Definition FLOAT_OVERFLOW : Q := inject_Z (2 ^ 1024 - 2 ^ 970).

(** The conversion of a number held in a decoded object to a float.  A
    decoded float is below [FLOAT_OVERFLOW] already; only an int can reach
    it. *)
Definition to_float (q : Q) : result Q :=
  if Qle_bool FLOAT_OVERFLOW (Qabs q) then Raise OverflowError else Ok q.

End Py.

Notation "'do' x <- m ; k" := (Py.bind m (fun x => k))
  (at level 10, x name, m at level 100, k at level 200,
   format "'[v' 'do'  x  <-  m ; '/' k ']'").

(** ** The vehicle and the energy model *)
Module Model.
Import Py.

Definition BATTERY_CAPACITY_KWH : Q := 100.0.
Definition VEHICLE_MASS_KG : Q := 2435.0.
Definition DRAG_COEFFICIENT : Q := 0.28.
Definition FRONTAL_AREA_M2 : Q := 2.62.
Definition ROLLING_RESISTANCE : Q := 0.009.
Definition AIR_DENSITY_KG_M3 : Q := 1.225.
Definition DRIVETRAIN_EFFICIENCY : Q := 0.90.
Definition REGEN_EFFICIENCY : Q := 0.65.
Definition AUX_POWER_KW : Q := 0.4.
Definition RESERVE_SOC_PCT : Q := 5.0.

(** The dict literal, in insertion order: [((lo, hi), power)]. *)
Definition HVAC_POWER_MAP : list ((Z * Z) * Q) :=
  [ ((-30, -10)%Z, 5.0); ((-10, 0)%Z, 4.0); ((0, 5)%Z, 3.0);
    ((5, 12)%Z, 1.5); ((12, 22)%Z, 0.3); ((22, 28)%Z, 1.5);
    ((28, 35)%Z, 3.0); ((35, 50)%Z, 4.5) ].

(** [lo <= temp_c < hi] *)
Definition in_band (lo hi : Z) (temp_c : Q) : bool :=
  Qle_bool (inject_Z lo) temp_c && negb (Qle_bool (inject_Z hi) temp_c).

(** The [for ... in HVAC_POWER_MAP.items()] loop with its early [return],
    and the [return 2.0] after it. *)
Fixpoint hvac_scan (items : list ((Z * Z) * Q)) (temp_c : Q) : Q :=
  match items with
  | [] => 2.0
  | ((lo, hi), power) :: rest =>
      if in_band lo hi temp_c then power else hvac_scan rest temp_c
  end.

Definition estimate_hvac_power (temp_c : Q) : Q :=
  hvac_scan HVAC_POWER_MAP temp_c.

(** The locals of [compute_energy_consumption_kwh_per_km], in order.  The
    square [effective_v ** 2] is the exact one; in the script it raises
    [OverflowError] when it is beyond the floats, which needs a speed or a
    wind beyond 1e154. *)
Definition v_ms (speed_kmh : Q) : Q := speed_kmh / 3.6.
Definition effective_v (speed_kmh wind_ms : Q) : Q :=
  v_ms speed_kmh + (wind_ms * 0.5).
Definition f_aero (speed_kmh wind_ms : Q) : Q :=
  0.5 * AIR_DENSITY_KG_M3 * DRAG_COEFFICIENT * FRONTAL_AREA_M2
  * effective_v speed_kmh wind_ms ^ 2.
Definition f_roll : Q := ROLLING_RESISTANCE * VEHICLE_MASS_KG * 9.81.
Definition f_grade (elev : Q) : Q := VEHICLE_MASS_KG * 9.81 * (elev / 1000.0).
Definition f_total (speed_kmh wind_ms elev : Q) : Q :=
  f_aero speed_kmh wind_ms + f_roll + max (f_grade elev) 0.
Definition regen_recovery (speed_kmh elev : Q) : Q :=
  if Qlt_le_dec (f_grade elev) 0
  then Qabs (f_grade elev) * v_ms speed_kmh * REGEN_EFFICIENCY / 1000.0
  else 0.0.
Definition p_mech (speed_kmh wind_ms elev : Q) : Q :=
  f_total speed_kmh wind_ms elev * v_ms speed_kmh / 1000.0.
Definition p_elec (speed_kmh wind_ms elev : Q) : Q :=
  p_mech speed_kmh wind_ms elev / DRIVETRAIN_EFFICIENCY.
Definition p_total (speed_kmh temp_c wind_ms elev : Q) : Q :=
  max (p_elec speed_kmh wind_ms elev + estimate_hvac_power temp_c
       + AUX_POWER_KW - regen_recovery speed_kmh elev) 0.5.

Definition compute_energy_consumption_kwh_per_km
  (speed_kmh temp_c wind_ms elev : Q) : result Q :=
  div (p_total speed_kmh temp_c wind_ms elev) speed_kmh.

(** The locals of [calculate_range_km]. *)
Definition usable_soc (soc : Q) : Q := max (soc - RESERVE_SOC_PCT) 0.
Definition usable_kwh (soc soh energy_fraction : Q) : Q :=
  BATTERY_CAPACITY_KWH * (soh / 100.0) * (usable_soc soc / 100.0)
  * energy_fraction.
Definition avg (temp_c wind_ms : Q) : result Q :=
  do c1 <- compute_energy_consumption_kwh_per_km 35 temp_c wind_ms 2.0;
  do c2 <- compute_energy_consumption_kwh_per_km 60 temp_c wind_ms 5.0;
  do c3 <- compute_energy_consumption_kwh_per_km 100 temp_c wind_ms 3.0;
  ret (0.40 * c1 + 0.40 * c2 + 0.20 * c3).

Definition calculate_range_km (soc soh temp_c wind_ms energy_fraction : Q)
  : result Q :=
  do a <- avg temp_c wind_ms;
  if Qlt_le_dec 0 a
  then do u <- div (usable_kwh soc soh energy_fraction) a; ret (max u 0)
  else ret 0.

End Model.

(** ** The inputs on which the float arithmetic stays finite *)
Module Domain.

(** A magnitude far beyond any reading and far below the largest float.
    With the speed, the wind and the grade within it, the square
    [effective_v ** 2] is a float, so that [**] does not raise
    [OverflowError], and no product or quotient of the energy model
    overflows to an infinity or vanishes. *)
Definition LIMIT : Q := 1e50.

Definition bounded (x : Q) : Prop := Qabs x <= LIMIT.

(** A speed that is neither too large nor too close to zero. *)
Definition speed_in_range (speed_kmh : Q) : Prop :=
  1e-50 <= speed_kmh /\ speed_kmh <= LIMIT.

(** A state of health or an energy fraction that is not too close to
    zero, so that the usable energy does not vanish in the floats. *)
Definition share_in_range (x : Q) : Prop := 1e-50 <= x /\ x <= LIMIT.

End Domain.

(** ** Python objects decoded from a JSON body *)
Module Json.
Import Py.

(** What [r.json()] can return.  A [JDict] lists its items in insertion
    order; its keys are distinct, and a lookup takes the first item with
    the key. *)
#[warnings="-register-all"]
Inductive value : Type :=
| JNone
| JBool (b : bool)
| JNum (q : Q)
| JStr (s : string)
| JList (l : list value)
| JDict (items : list (string * value)).

(** Truth value of an object, as [if x:] and [and] test it. *)
Definition truthy (v : value) : bool :=
  match v with
  | JNone => false
  | JBool b => b
  | JNum q => negb (Qeq_bool q 0)
  | JStr s => negb (String.eqb s "")
  | JList l => match l with [] => false | _ => true end
  | JDict items => match items with [] => false | _ => true end
  end.

Definition is_not_none (v : value) : bool :=
  match v with JNone => false | _ => true end.

Fixpoint lookup_key (items : list (string * value)) (k : string)
  : option value :=
  match items with
  | [] => None
  | (k', v) :: rest => if String.eqb k' k then Some v else lookup_key rest k
  end.

(** [x.get(k, default)]: only a dict has the method. *)
Definition get (x : value) (k : string) (default : value) : result value :=
  match x with
  | JDict items =>
      Ok (match lookup_key items k with Some v => v | None => default end)
  | _ => Raise AttributeError
  end.

(** [x[k]] with a string subscript [k]. *)
Definition getitem (x : value) (k : string) : result value :=
  match x with
  | JDict items =>
      match lookup_key items k with Some v => Ok v | None => Raise KeyError end
  | _ => Raise TypeError
  end.

(** [len(x)]. *)
Definition len (x : value) : result nat :=
  match x with
  | JList l => Ok (length l)
  | JDict items => Ok (length items)
  | JStr s => Ok (String.length s)
  | _ => Raise TypeError
  end.

(** The objects a [for ... in x] loop visits: the elements of a list, the
    keys of a dict, the characters of a string. *)
Definition iter (x : value) : result (list value) :=
  match x with
  | JList l => Ok l
  | JDict items => Ok (map (fun kv => JStr (fst kv)) items)
  | JStr s =>
      Ok (map (fun c => JStr (String c EmptyString)) (list_ascii_of_string s))
  | _ => Raise TypeError
  end.

Section Float.
(** Python's builtin [float] on a [str]: the number written there, or
    [None] where it raises [ValueError].  A text that denotes an infinity
    or NaN has no number here. *)
Variable float_of_str : string -> option Q.

(** [float(x)]. *)
Definition float (x : value) : result Q :=
  match x with
  | JNum q => to_float q
  | JBool b => Ok (if b then 1 else 0)
  | JStr s =>
      match float_of_str s with Some q => Ok q | None => Raise ValueError end
  | _ => Raise TypeError
  end.
End Float.

End Json.

(** ** The isodistance request to Valhalla *)
Module Valhalla.
Import Py Json.

(** The JSON document posted to [/isochrone]: the location and one contour
    per distance. *)
Record iso_request : Type := {
  loc_lat : Q;
  loc_lon : Q;
  contours : list Q
}.

(** A [requests.Response], as far as the script looks at it. *)
Record response : Type := {
  status_ok : bool;            (* the status is not a 4xx or 5xx *)
  body : result value          (* what [r.json()] returns or raises *)
}.

Definition raise_for_status (r : response) : result unit :=
  if status_ok r then Ok tt else Raise HTTPError.

Definition json (r : response) : result value := body r.

(** [geom_by_distance]: a dict keyed by floats, kept in insertion order.
    Storing under a key already present replaces the value and keeps the
    key where it is. *)
Definition geom_dict : Type := list (Q * value).

Fixpoint dict_set (d : geom_dict) (k : Q) (v : value) : geom_dict :=
  match d with
  | [] => [(k, v)]
  | (k', v') :: rest =>
      if Qeq_bool k' k then (k', v) :: rest else (k', v') :: dict_set rest k v
  end.

(** The inner loop over [geom_by_distance.items()] with its [break].  The
    test compares the exact difference with the tolerance; the float
    difference is rounded, and the two tests agree except where
    [|vd - d|] is within rounding of 1.0. *)
Fixpoint find_match (items : geom_dict) (d : Q) : value :=
  match items with
  | [] => JNone
  | (vd, geom) :: rest =>
      if Qlt_le_dec (Qabs (vd - d)) 1.0 then geom else find_match rest d
  end.

Section Fetch.
Variable float_of_str : string -> option Q.
Variable post : iso_request -> result response.

(** The body of the loop over [features]. *)
Definition feature_step (geom_by_distance : geom_dict) (feat : value)
  : result geom_dict :=
  do props <- get feat "properties" (JDict []);
  do contour_val <- get props "contour" JNone;
  do geom <- get feat "geometry" JNone;
  if is_not_none contour_val && truthy geom
  then do k <- float float_of_str contour_val;
       let geom_by_distance' := dict_set geom_by_distance k geom in
       (* the log line evaluates geom['type'] *)
       do _ <- getitem geom "type";
       ret geom_by_distance'
  else ret geom_by_distance.

Fixpoint collect (feats : list value) (geom_by_distance : geom_dict)
  : result geom_dict :=
  match feats with
  | [] => ret geom_by_distance
  | feat :: rest =>
      do d <- feature_step geom_by_distance feat;
      collect rest d
  end.

(** The [try] block up to the end of the loop over [features]: the
    request, the status check, the decoding, and [geom_by_distance]. *)
Definition fetch_geom_by_distance (lat lon : Q) (distances_km : list Q)
  : result geom_dict :=
  do r <- post {| loc_lat := lat; loc_lon := lon; contours := distances_km |};
  do _ <- raise_for_status r;
  do geojson <- json r;
  do features <- get geojson "features" (JList []);
  do _ <- len features;
  do feats <- iter features;
  collect feats [].

(** The [try] block: the above, then the matching loop. *)
Definition fetch_body (lat lon : Q) (distances_km : list Q)
  : result (list value) :=
  do geom_by_distance <- fetch_geom_by_distance lat lon distances_km;
  ret (map (find_match geom_by_distance) distances_km).

(** The three [except] clauses, tried in order. *)
Definition fetch_handler (distances_km : list Q) (e : exn)
  : result (list value) :=
  match e with
  | ConnectionError => ret (repeat JNone (length distances_km))
  | HTTPError => ret (repeat JNone (length distances_km))
  | _ => ret (repeat JNone (length distances_km))
  end.

Definition fetch_valhalla_isodistance (lat lon : Q) (distances_km : list Q)
  : result (list value) :=
  try_except (fetch_body lat lon distances_km) (fetch_handler distances_km).
End Fetch.

End Valhalla.

(** ** The band pipeline of [main] *)
Module Main.
Import Py Model Json Valhalla.

(** An entry of [ENERGY_BANDS]. *)
Record band : Type := {
  label : string;
  fraction : Q;
  color : string
}.

Definition ENERGY_BANDS : list band :=
  [ {| label := "100%"; fraction := 1.00; color := "#00e5ff" |};
    {| label := "75%";  fraction := 0.75; color := "#00b0ff" |};
    {| label := "50%";  fraction := 0.50; color := "#2979ff" |};
    {| label := "25%";  fraction := 0.25; color := "#7c4dff" |} ].

(** An entry of [band_results]: the band's keys, ["range_km"], and the
    ["geometry"] key, which is [None] until it is stored. *)
Record band_result : Type := {
  the_band : band;
  range_km : Q;
  geometry : option value
}.

(** [band["geometry"] = g] *)
Definition set_geometry (g : value) (b : band_result) : band_result :=
  {| the_band := the_band b; range_km := range_km b; geometry := Some g |}.

(** [band_results[idx]["geometry"] = g]; the subscript raises out of range. *)
Definition store_geometry (band_results : list band_result) (idx : nat)
  (g : value) : result (list band_result) :=
  match band_results !! idx with
  | Some b => Ok (<[idx := set_geometry g b]> band_results)
  | None => Raise IndexError
  end.

(** The first loop: one range per band, in the order of the bands. *)
Fixpoint plan_bands (soc soh temp_c wind_ms : Q) (bands : list band)
  : result (list band_result) :=
  match bands with
  | [] => ret []
  | b :: rest =>
      do r <- calculate_range_km soc soh temp_c wind_ms (fraction b);
      do rs <- plan_bands soc soh temp_c wind_ms rest;
      ret ({| the_band := b; range_km := r; geometry := None |} :: rs)
  end.

(** The state of the second loop. *)
Record selection : Type := {
  distances_km : list Q;
  valid_indices : list nat;
  band_results : list band_result
}.

(** Its body, at index [i] on the band [b = band_results[i]]. *)
Definition select_step (st : selection) (ib : nat * band_result)
  : result selection :=
  let (i, b) := ib in
  if Qle_bool 1.0 (range_km b)
  then ret {| distances_km := distances_km st ++ [round1 (range_km b)];
              valid_indices := valid_indices st ++ [i];
              band_results := band_results st |}
  else do bs <- store_geometry (band_results st) i JNone;
       ret {| distances_km := distances_km st;
              valid_indices := valid_indices st;
              band_results := bs |}.

Fixpoint select_loop (todo : list (nat * band_result)) (st : selection)
  : result selection :=
  match todo with
  | [] => ret st
  | ib :: rest => do st' <- select_step st ib; select_loop rest st'
  end.

(** [enumerate(l)] *)
Definition enumerate {A} (l : list A) : list (nat * A) :=
  combine (seq 0 (length l)) l.

Definition select (brs : list band_result) : result selection :=
  select_loop (enumerate brs)
    {| distances_km := []; valid_indices := []; band_results := brs |}.

(** The loop over [zip(valid_indices, geometries)]. *)
Fixpoint attach (pairs : list (nat * value)) (brs : list band_result)
  : result (list band_result) :=
  match pairs with
  | [] => ret brs
  | (idx, geom) :: rest =>
      do brs' <- store_geometry brs idx geom; attach rest brs'
  end.

Section Run.
Variable float_of_str : string -> option Q.
Variable post : iso_request -> result response.

(** [main] from the vehicle state, the position and the weather to
    [band_results], with the requests posted to the engine. *)
Definition main_bands (soc soh lat lon temp_c wind_ms : Q)
  : result (list band_result * list iso_request) :=
  do planned <- plan_bands soc soh temp_c wind_ms ENERGY_BANDS;
  do st <- select planned;
  match distances_km st with
  | [] => ret (band_results st, [])
  | _ :: _ =>
      do geometries <-
        fetch_valhalla_isodistance float_of_str post lat lon (distances_km st);
      do brs <- attach (combine (valid_indices st) geometries)
                  (band_results st);
      ret (brs, [ {| loc_lat := lat; loc_lon := lon;
                     contours := distances_km st |} ])
  end.
End Run.

End Main.

(** ** The reconciler in the words of its description *)
Module Spec.
Import Py Json Valhalla Main.

(** The distance [vd] is within the tolerance of the request [d]. *)
Definition within (vd d : Q) : bool :=
  if Qlt_le_dec (Qabs (vd - d)) 1.0 then true else false.

(** The first returned pair within the tolerance. *)
Definition first_within (pairs : list (Q * value)) (d : Q)
  : option (Q * value) :=
  find (fun p => within (fst p) d) pairs.

(** The geometry of the last returned pair with the distance [vd]. *)
Definition last_with_distance (pairs : list (Q * value)) (vd : Q)
  : option value :=
  option_map snd (find (fun p => Qeq_bool (fst p) vd) (rev pairs)).

(** What a request of [d] is given: nothing when no returned distance is
    within the tolerance; otherwise the first returned distance within it
    decides, and the last geometry returned under that distance is
    taken. *)
Definition reconciled (pairs : list (Q * value)) (d : Q) : value :=
  match first_within pairs d with
  | None => JNone
  | Some (vd, _) =>
      match last_with_distance pairs vd with
      | Some geom => geom
      | None => JNone
      end
  end.

(** The table built from the returned pairs, taken in order. *)
Definition table_of (pairs : list (Q * value)) : geom_dict :=
  fold_left (fun d p => dict_set d (fst p) (snd p)) pairs [].

(** The feature [feat] of a response carries the pair [p]: a numeric
    ["contour"] property that has a float and a ["geometry"] object that
    has a ["type"]. *)
Definition carries (feat : value) (p : Q * value) : Prop :=
  exists props ty,
    get feat "properties" (JDict []) = Ok props
    /\ get props "contour" JNone = Ok (JNum (fst p))
    /\ to_float (fst p) = Ok (fst p)
    /\ get feat "geometry" JNone = Ok (snd p)
    /\ getitem (snd p) "type" = Ok ty.

(** Distances as the map has them: up to a million km. *)
Definition DISTANCE_LIMIT : Q := 1e6.

(** What the rounding of the floats can move a difference of two such
    distances by, with room to spare. *)
Definition MARGIN : Q := 1e-6.

(** The returned distance [vd] and the request [d] are not within
    [MARGIN] of being exactly the tolerance apart: the float test
    [abs(vd - d) < 1.0] and the comparison of the exact numbers then
    agree. *)
Definition clear_of_tolerance (vd d : Q) : Prop :=
  Qabs vd <= DISTANCE_LIMIT /\ Qabs d <= DISTANCE_LIMIT
  /\ (Qabs (vd - d) <= 1.0 - MARGIN \/ 1.0 + MARGIN <= Qabs (vd - d)).

(** Two returned distances are the same number or at least [MARGIN]
    apart: their floats are then equal exactly when they are. *)
Definition same_or_apart (vd vd' : Q) : Prop :=
  vd == vd' \/ MARGIN <= Qabs (vd - vd').

(** Every returned distance is clear of the tolerance of every request,
    and the returned distances are the same or apart. *)
Definition well_separated (pairs : list (Q * value)) (ds : list Q) : Prop :=
  (forall p d, In p pairs -> In d ds -> clear_of_tolerance (fst p) d)
  /\ (forall p q, In p pairs -> In q pairs -> same_or_apart (fst p) (fst q)).

(** The response [r] is a success whose body lists features carrying
    [pairs], in this order. *)
Definition returns_pairs (r : result response) (pairs : list (Q * value))
  : Prop :=
  exists resp geojson feats,
    r = Ok resp /\ status_ok resp = true /\ body resp = Ok geojson
    /\ get geojson "features" (JList []) = Ok (JList feats)
    /\ Forall2 carries feats pairs.

(** No two returned pairs have the same distance. *)
Definition distinct_distances (pairs : list (Q * value)) : Prop :=
  forall i j p q,
    pairs !! i = Some p -> pairs !! j = Some q -> fst p == fst q -> i = j.

(** A band asks for a polygon when its range is at least 1.0 km. *)
Definition viable (b : band_result) : bool := Qle_bool 1.0 (range_km b).

(** The geometry a band ends with, given what the engine's answer gives
    for a distance. *)
Definition final_band (matched : Q -> value) (b : band_result)
  : band_result :=
  set_geometry
    (if viable b then matched (round1 (range_km b)) else JNone) b.

(** What the fetch gives for a distance: the match in the table when the
    [try] block built one, nothing when it raised. *)
Definition matched_in (table : result geom_dict) (d : Q) : value :=
  match table with
  | Ok geom_by_distance => find_match geom_by_distance d
  | Raise _ => JNone
  end.

(** The distances of the viable bands, in band order. *)
Definition viable_distances (planned : list band_result) : list Q :=
  map (fun b => round1 (range_km b)) (List.filter viable planned).

(** The indices of the viable bands, counting from [n]. *)
Fixpoint viable_indices_from (n : nat) (brs : list band_result) : list nat :=
  match brs with
  | [] => []
  | b :: rest =>
      if viable b then n :: viable_indices_from (S n) rest
      else viable_indices_from (S n) rest
  end.

(** A band below 1.0 km has its geometry set to [None]. *)
Definition mark (b : band_result) : band_result :=
  if viable b then b else set_geometry JNone b.

(** The viable bands take the geometries in order, one each, as long as
    there are geometries. *)
Fixpoint assign (brs : list band_result) (gs : list value)
  : list band_result :=
  match brs with
  | [] => []
  | b :: rest =>
      if viable b
      then match gs with
           | g :: gs' => set_geometry g b :: assign rest gs'
           | [] => b :: assign rest []
           end
      else set_geometry JNone b :: assign rest gs
  end.

End Spec.

(** ** Sample engine answers *)
Module Samples.
Import Py Json Valhalla.
Local Open Scope string_scope.

Definition polygon (name : string) : value :=
  JDict [("type", JStr "Polygon"); ("coordinates", JList [JStr name])].

Definition feature (contour : Q) (geom : value) : value :=
  JDict [("type", JStr "Feature");
         ("properties", JDict [("contour", JNum contour);
                               ("metric", JStr "distance")]);
         ("geometry", geom)].

Definition collection (feats : list value) : value :=
  JDict [("type", JStr "FeatureCollection"); ("features", JList feats)].

(** An engine that answers every request with the same body. *)
Definition answering (geojson : value) (_ : iso_request) : result response :=
  Ok {| status_ok := true; body := Ok geojson |}.

(** Engines that fail: unreachable, an error status, a body that is not
    JSON, a JSON body that is not an object. *)
Definition unreachable (_ : iso_request) : result response :=
  Raise ConnectionError.

(** A stand-in for [float] on strings where no contour is a string: it
    reads no string as a number. *)
Definition no_float (_ : string) : option Q := None.

End Samples.

(** ** The readers of the vehicle state, the position and the weather *)
Module Adapters.
Import Py Json Valhalla.
Local Open Scope string_scope.

(** [state in ("unknown", "unavailable", None)] *)
Definition is_unknown (state : value) : bool :=
  match state with
  | JNone => true
  | JStr s => String.eqb s "unknown" || String.eqb s "unavailable"
  | _ => false
  end.

(** [state in ("home", "not_home")] *)
Definition is_home (state : value) : bool :=
  match state with
  | JStr s => String.eqb s "home" || String.eqb s "not_home"
  | _ => false
  end.

(** [x[0]] *)
Definition getitem0 (x : value) : result value :=
  match x with
  | JList (a :: _) => Ok a
  | JList [] => Raise IndexError
  | JStr (String c _) => Ok (JStr (String c EmptyString))
  | JStr EmptyString => Raise IndexError
  | JDict _ => Raise KeyError
  | _ => Raise TypeError
  end.

(** Formatting [x] with [:.1f] in an f-string: numbers only, and an int
    is converted to a float first. *)
Definition format_1f (x : value) : result unit :=
  match x with
  | JNum q => do _ <- to_float q; ret tt
  | JBool _ => Ok tt
  | JStr _ => Raise ValueError
  | _ => Raise TypeError
  end.

(** The dict returned by [get_vehicle_state]. *)
Record vehicle : Type := {
  soc : Q;
  soh : Q;
  oem_range_km : option Q;
  odometer_km : option Q;
  charging_status : value
}.

(** The dict returned by [get_weather]; the default has no ["humidity"]. *)
Record weather : Type := {
  temp_c : value;
  wind_ms : value;
  humidity : option value;
  description : value;
  icon : value
}.

Section Readers.
Variable float_of_str : string -> option Q.
(** [requests.get] on the state URL of an entity, as [ha_get_state] calls
    it. *)
Variable ha_get : string -> result response.
(** The second [requests.get] on the same URL, in [get_vehicle_position]. *)
Variable ha_get_again : string -> result response.
(** [requests.get] on the weather URL with the position as parameters. *)
Variable owm_get : Q -> Q -> result response.
(** The environment. *)
Variable OWM_API_KEY : string.
Variables DEFAULT_LAT DEFAULT_LON : Q.

Definition ha_get_state (entity_id : string) : result value :=
  try_except
    (do r <- ha_get entity_id;
     do _ <- raise_for_status r;
     do j <- json r;
     do state <- get j "state" JNone;
     ret (if is_unknown state then JNone else state))
    (fun _ => ret JNone).

(** [float(raw) if raw else default] *)
Definition float_or (raw : value) (default : Q) : result Q :=
  if truthy raw then float float_of_str raw else ret default.

(** [float(raw) if raw else None] *)
Definition float_or_none (raw : value) : result (option Q) :=
  if truthy raw then do x <- float float_of_str raw; ret (Some x)
  else ret None.

Definition get_vehicle_state : result vehicle :=
  do soc_raw <- ha_get_state "sensor.polestar_3988_battery_charge_level";
  do soh_raw <- ha_get_state "sensor.final_battery_health_estimate";
  do oem_range_raw <- ha_get_state "sensor.polestar_3988_estimated_range";
  do odo_raw <- ha_get_state "sensor.polestar_3988_current_odometer";
  do charging_raw <- ha_get_state "sensor.polestar_3988_charging_status";
  do soc <- float_or soc_raw 80.0;
  do soh <- float_or soh_raw 95.0;
  do oem_range <- float_or_none oem_range_raw;
  do odometer <- float_or_none odo_raw;
  let charging := if truthy charging_raw then charging_raw else JStr "Unknown" in
  ret {| soc := soc; soh := soh; oem_range_km := oem_range;
         odometer_km := odometer; charging_status := charging |}.

(** The [try] block of [get_vehicle_position] for one entity: [Some] is its
    [return], [None] is falling out of the block. *)
Definition tracker_position (entity : string) : result (option (Q * Q)) :=
  do r <- ha_get_again entity;
  do j <- json r;
  do attrs <- get j "attributes" (JDict []);
  do lat <- get attrs "latitude" JNone;
  do lon <- get attrs "longitude" JNone;
  if truthy lat && truthy lon
  then do la <- float float_of_str lat;
       do lo <- float float_of_str lon;
       ret (Some (la, lo))
  else ret None.

(** The loop over the entities, and the [return] of the defaults after it. *)
Fixpoint position_loop (entities : list string) : result (Q * Q) :=
  match entities with
  | [] => ret (DEFAULT_LAT, DEFAULT_LON)
  | entity :: rest =>
      do state <- ha_get_state entity;
      if truthy state && negb (is_home state)
      then do found <- try_except (tracker_position entity)
                         (fun _ => ret None);
           match found with
           | Some p => ret p
           | None => position_loop rest
           end
      else position_loop rest
  end.

Definition get_vehicle_position : result (Q * Q) :=
  position_loop ["device_tracker.polestar_3988";
                 "device_tracker.polestar_3988_position"].

Definition default_weather : weather :=
  {| temp_c := JNum 15.0; wind_ms := JNum 3.0; humidity := None;
     description := JStr "Unknown"; icon := JStr "01d" |}.

(** The [try] block of [get_weather]. *)
Definition weather_body (lat lon : Q) : result weather :=
  do r <- owm_get lat lon;
  do _ <- raise_for_status r;
  do data <- json r;
  do main1 <- getitem data "main";
  do temp <- getitem main1 "temp";
  do wind <- get data "wind" (JDict []);
  do speed <- get wind "speed" (JNum 3.0);
  do main2 <- getitem data "main";
  do hum <- get main2 "humidity" (JNum 50);
  do w <- get data "weather" JNone;
  do descr <- (if truthy w
               then do ws <- getitem data "weather";
                    do w0 <- getitem0 ws;
                    getitem w0 "description"
               else ret (JStr "Unknown"));
  do w' <- get data "weather" JNone;
  do ic <- (if truthy w'
            then do ws <- getitem data "weather";
                 do w0 <- getitem0 ws;
                 get w0 "icon" (JStr "01d")
            else ret (JStr "01d"));
  (* the log line formats the temperature and the wind with :.1f *)
  do _ <- format_1f temp;
  do _ <- format_1f speed;
  ret {| temp_c := temp; wind_ms := speed; humidity := Some hum;
         description := descr; icon := ic |}.

Definition get_weather (lat lon : Q) : result weather :=
  if String.eqb OWM_API_KEY "" then ret default_weather
  else try_except (weather_body lat lon) (fun _ => ret default_weather).

End Readers.

(** The number a value stands for in arithmetic: a number, or a boolean as
    0 or 1. *)
Definition as_number (x : value) : option Q :=
  match x with
  | JNum q => Some q
  | JBool b => Some (if b then 1 else 0)
  | _ => None
  end.

End Adapters.

(** ** The GeoJSON document and the summary of [main] *)
Module Output.
Import Py Json Valhalla Main.
Local Open Scope string_scope.

(** [band.get("geometry")] *)
Definition get_geometry (b : band_result) : value :=
  match geometry b with Some g => g | None => JNone end.

(** The feature appended for a band with the geometry [geom]. *)
Definition band_feature (b : band_result) (geom : value) : value :=
  JDict [("type", JStr "Feature");
         ("properties",
          JDict [("band", JStr (label (the_band b)));
                 ("range_km", JNum (round1 (range_km b)));
                 ("range_miles", JNum (round1 (range_km b * 0.621371)));
                 ("color", JStr (color (the_band b)));
                 ("fraction", JNum (fraction (the_band b)))]);
         ("geometry", geom)].

(** The loop over [bands], with its [continue]. *)
Fixpoint band_features (bands : list band_result) : list value :=
  match bands with
  | [] => []
  | b :: rest =>
      let geom := get_geometry b in
      if negb (truthy geom) then band_features rest
      else band_feature b geom :: band_features rest
  end.

Definition vehicle_feature (lat lon : Q) : value :=
  JDict [("type", JStr "Feature");
         ("properties",
          JDict [("type", JStr "vehicle"); ("label", JStr "Polestar 4")]);
         ("geometry",
          JDict [("type", JStr "Point");
                 ("coordinates", JList [JNum lon; JNum lat])])].

Definition build_geojson (lat lon : Q) (bands : list band_result) : value :=
  JDict [("type", JStr "FeatureCollection");
         ("features", JList (band_features bands ++ [vehicle_feature lat lon]))].

(** [band_results[0]["range_km"] if band_results else 0] *)
Definition max_range (band_results : list band_result) : Q :=
  match band_results with
  | b :: _ => range_km b
  | [] => 0
  end.


(** ["bands"] in the printed summary:
    [len([b for b in band_results if b.get("geometry")])]. *)
Definition bands_with_geometry (band_results : list band_result) : nat :=
  length (List.filter (fun b => truthy (get_geometry b)) band_results).

End Output.

(** ** The whole run *)
Module Run.
Import Py Json Valhalla Main Adapters Output.

(** A value used in arithmetic and comparisons with numbers: anything but a
    number or a boolean raises [TypeError] there. *)
Definition number (x : value) : result Q :=
  match as_number x with
  | Some q => Ok q
  | None => Raise TypeError
  end.

(** What [main] hands to the files and prints. *)
Record outcome : Type := {
  out_bands : list band_result;
  out_requests : list iso_request;
  out_geojson : value;
  out_max_range : Q;
  out_polygons : nat
}.

Section Main.
Variable float_of_str : string -> option Q.
Variable ha_get : string -> result response.
Variable ha_get_again : string -> result response.
Variable owm_get : Q -> Q -> result response.
Variable post : iso_request -> result response.
Variable OWM_API_KEY : string.
Variables DEFAULT_LAT DEFAULT_LON : Q.

(** [main], without the clock, the log and the writing of the two files. *)
Definition main : result outcome :=
  do vehicle <- get_vehicle_state float_of_str ha_get;
  do position <- get_vehicle_position float_of_str ha_get ha_get_again
                   DEFAULT_LAT DEFAULT_LON;
  do weather <- get_weather owm_get OWM_API_KEY (fst position) (snd position);
  do temp <- number (temp_c weather);
  do wind <- number (wind_ms weather);
  do res <- main_bands float_of_str post (soc vehicle) (soh vehicle)
              (fst position) (snd position) temp wind;
  ret {| out_bands := fst res;
         out_requests := snd res;
         out_geojson := build_geojson (fst position) (snd position) (fst res);
         out_max_range := max_range (fst res);
         out_polygons := bands_with_geometry (fst res) |}.

End Main.

End Run.

(** * Properties *)

Import Py Model Domain Json Valhalla Main Spec.

(** ** The domain of the floats *)
Section DomainFacts.

Lemma speed_in_range_pos (s : Q) : speed_in_range s -> 0 < s.
Proof.
  intros [H _]. eapply Qlt_le_trans; [| exact H]. reflexivity.
Qed.

Lemma LIMIT_is_float : LIMIT * LIMIT < FLOAT_OVERFLOW.
Proof. vm_compute. reflexivity. Qed.

Lemma bounded_is_float (x : Q) : bounded x -> Qabs x < FLOAT_OVERFLOW.
Proof.
  intros H. eapply Qle_lt_trans; [exact H |]. vm_compute. reflexivity.
Qed.

(** A bounded number has a float: converting it does not raise. *)
Lemma to_float_bounded (x : Q) : bounded x -> to_float x = Ok x.
Proof.
  intros H. unfold to_float.
  destruct (Qle_bool FLOAT_OVERFLOW (Qabs x)) eqn:E; [| reflexivity].
  apply Qle_bool_iff in E. pose proof (bounded_is_float x H). lra.
Qed.

Lemma square_le (x l : Q) : Qabs x <= l -> x ^ 2 <= l * l.
Proof.
  intros H. apply Qabs_Qle_condition in H. destruct H as [Lo Hi]. nra.
Qed.

(** Within the domain the effective velocity is bounded, and its square
    is below the least number that has no float: [effective_v ** 2] does
    not raise [OverflowError]. *)
Lemma effective_v_square_is_float (s w : Q) :
  bounded s -> bounded w -> effective_v s w ^ 2 < FLOAT_OVERFLOW.
Proof.
  intros Hs Hw. eapply Qle_lt_trans; [| exact LIMIT_is_float].
  apply square_le. unfold bounded in *.
  apply Qabs_Qle_condition in Hs. apply Qabs_Qle_condition in Hw.
  apply Qabs_Qle_condition. unfold effective_v, v_ms.
  destruct Hs as [S1 S2], Hw as [W1 W2].
  assert (E : s / 3.6 == s * (5 # 18)) by field.
  rewrite E. generalize dependent LIMIT. intros L S1 S2 W1 W2. split; lra.
Qed.

End DomainFacts.

(** Comparisons of constants, by computation. *)
Ltac decide_Qle := vm_compute; discriminate.
Ltac in_domain :=
  unfold bounded, speed_in_range, share_in_range; try split; decide_Qle.
Ltac clear_of_tolerance_const :=
  unfold clear_of_tolerance; cbn [fst];
  split; [decide_Qle | split; [decide_Qle |
    first [left; decide_Qle | right; decide_Qle]]].
Ltac same_or_apart_const :=
  unfold same_or_apart; cbn [fst];
  first [left; reflexivity | right; decide_Qle].

(** ** Numbers and [max] *)
Section MaxFacts.

Lemma max_ge_l (a b : Q) : a <= max a b.
Proof. unfold max. destruct (Qlt_le_dec a b); lra. Qed.

Lemma max_ge_r (a b : Q) : b <= max a b.
Proof. unfold max. destruct (Qlt_le_dec a b); lra. Qed.

Lemma max_of_le (a b : Q) : b <= a -> max a b = a.
Proof. unfold max. destruct (Qlt_le_dec a b); [lra | reflexivity]. Qed.

Lemma max_of_lt (a b : Q) : a < b -> max a b = b.
Proof. unfold max. destruct (Qlt_le_dec a b); [reflexivity | lra]. Qed.

Lemma max_mono_l (a a' b : Q) : a <= a' -> max a b <= max a' b.
Proof.
  unfold max. destruct (Qlt_le_dec a b), (Qlt_le_dec a' b); lra.
Qed.

Lemma max_eq_Qmax (a b : Q) : max a b == Qmax a b.
Proof.
  unfold max. destruct (Qlt_le_dec a b) as [H | H].
  - symmetry. apply Q.max_r. lra.
  - symmetry. apply Q.max_l. exact H.
Qed.

Lemma div_le_compat (x y a : Q) : 0 < a -> x <= y -> x / a <= y / a.
Proof.
  intros Ha Hxy. apply Qle_shift_div_l; [exact Ha |].
  assert (E : x / a * a == x) by (field; lra). lra.
Qed.

Lemma div_lt_compat (x y a : Q) : 0 < a -> x < y -> x / a < y / a.
Proof.
  intros Ha Hxy. apply Qlt_shift_div_l; [exact Ha |].
  assert (E : x / a * a == x) by (field; lra). lra.
Qed.

Lemma div_ok (x a : Q) : ~ a == 0 -> div x a = Ok (x / a).
Proof.
  intros Ha. unfold div. destruct (Qeq_bool a 0) eqn:E; [| reflexivity].
  apply Qeq_bool_iff in E. contradiction.
Qed.

End MaxFacts.

(** ** The HVAC power estimator *)
Section HvacFacts.

Lemma in_band_iff (lo hi : Z) (t : Q) :
  in_band lo hi t = true <-> inject_Z lo <= t /\ t < inject_Z hi.
Proof.
  unfold in_band. rewrite andb_true_iff, negb_true_iff, Qle_bool_iff.
  rewrite <- not_true_iff_false, Qle_bool_iff. split.
  - intros [H1 H2]. split; [exact H1 | lra].
  - intros [H1 H2]. split; [exact H1 | lra].
Qed.

Lemma in_band_false_iff (lo hi : Z) (t : Q) :
  in_band lo hi t = false <-> t < inject_Z lo \/ inject_Z hi <= t.
Proof.
  rewrite <- not_true_iff_false, in_band_iff. split.
  - intros H. destruct (Qlt_le_dec t (inject_Z lo)); [now left |].
    destruct (Qlt_le_dec t (inject_Z hi)); [| now right].
    exfalso. apply H. split; assumption.
  - intros [H | H] [H1 H2]; lra.
Qed.

(** Splits the goal on every band test, keeping the arithmetic facts. *)
Ltac split_bands :=
  repeat match goal with
    | |- context [in_band ?lo ?hi ?t] =>
        let E := fresh "E" in
        destruct (in_band lo hi t) eqn:E;
        [ apply in_band_iff in E | apply in_band_false_iff in E ];
        unfold inject_Z in E; try (exfalso; lra)
    end;
  repeat match goal with
    | H : _ \/ _ |- _ => destruct H; try (exfalso; lra)
    end.

Ltac pick_band :=
  first [ solve [ split; [ lra | reflexivity ] ]
        | left; pick_band | right; pick_band ].

(** What the scan returns, band by band. *)
Lemma estimate_hvac_power_cases (t : Q) :
  (t < -30 /\ estimate_hvac_power t = 2.0) \/
  (-30 <= t < -10 /\ estimate_hvac_power t = 5.0) \/
  (-10 <= t < 0 /\ estimate_hvac_power t = 4.0) \/
  (0 <= t < 5 /\ estimate_hvac_power t = 3.0) \/
  (5 <= t < 12 /\ estimate_hvac_power t = 1.5) \/
  (12 <= t < 22 /\ estimate_hvac_power t = 0.3) \/
  (22 <= t < 28 /\ estimate_hvac_power t = 1.5) \/
  (28 <= t < 35 /\ estimate_hvac_power t = 3.0) \/
  (35 <= t < 50 /\ estimate_hvac_power t = 4.5) \/
  (50 <= t /\ estimate_hvac_power t = 2.0).
Proof.
  unfold estimate_hvac_power, HVAC_POWER_MAP, hvac_scan.
  split_bands; pick_band.
Qed.

Lemma estimate_hvac_power_bounds (t : Q) :
  0.3 <= estimate_hvac_power t <= 5.0.
Proof.
  destruct (estimate_hvac_power_cases t)
    as [[_ E] | [[_ E] | [[_ E] | [[_ E] | [[_ E] | [[_ E]
       | [[_ E] | [[_ E] | [[_ E] | [_ E]]]]]]]]]];
    rewrite E; lra.
Qed.

(** The bands do not overlap: a temperature lies in at most one. *)
Lemma HVAC_POWER_MAP_disjoint (t : Q) (b1 b2 : (Z * Z) * Q) :
  In b1 HVAC_POWER_MAP -> In b2 HVAC_POWER_MAP ->
  in_band (fst (fst b1)) (snd (fst b1)) t = true ->
  in_band (fst (fst b2)) (snd (fst b2)) t = true ->
  b1 = b2.
Proof.
  unfold HVAC_POWER_MAP. cbn [In]. intros H1 H2 I1 I2.
  apply in_band_iff in I1. apply in_band_iff in I2.
  repeat match goal with
    | H : _ \/ _ |- _ => destruct H
    | H : False |- _ => destruct H
    end; subst; cbn [fst snd] in I1, I2; unfold inject_Z in I1, I2;
    try reflexivity; exfalso; lra.
Qed.

(** The scan returns the power of the first band that holds the
    temperature, and 2.0 when none does. *)
Lemma hvac_scan_hit (items : list ((Z * Z) * Q)) (t : Q) (b : (Z * Z) * Q) :
  In b items ->
  in_band (fst (fst b)) (snd (fst b)) t = true ->
  (forall b', In b' items ->
     in_band (fst (fst b')) (snd (fst b')) t = true -> b' = b) ->
  hvac_scan items t = snd b.
Proof.
  induction items as [| [[lo hi] p] rest IH]; intros Hin Hb Huniq.
  - destruct Hin.
  - cbn [hvac_scan]. destruct (in_band lo hi t) eqn:E.
    + assert (Hb' : ((lo, hi), p) = b) by (apply Huniq; [now left | exact E]).
      now subst b.
    + destruct Hin as [Heq | Hin]; [subst b; cbn [fst snd] in Hb; congruence |].
      apply IH; [exact Hin | exact Hb |].
      intros b' Hb'. apply Huniq. now right.
Qed.

Lemma hvac_scan_miss (items : list ((Z * Z) * Q)) (t : Q) :
  (forall b, In b items -> in_band (fst (fst b)) (snd (fst b)) t = false) ->
  hvac_scan items t = 2.0.
Proof.
  induction items as [| [[lo hi] p] rest IH]; intros Hnone.
  - reflexivity.
  - cbn [hvac_scan].
    assert (E : in_band lo hi t = false) by (apply (Hnone ((lo, hi), p)); now left).
    rewrite E. apply IH. intros b Hb. apply Hnone. now right.
Qed.


End HvacFacts.

(** C8. For every temperature the estimator returns a number (it is a total
    function, no exception is modelled or needed): the power of the one
    half-open band [lo, hi) of the table that holds the temperature when
    there is one, and the fallback 2.0 when the temperature is in no band,
    which is the case exactly below -30 and from 50 upwards. *)
Theorem estimate_hvac_power_total (temp_c : Q) :
  (forall lo hi power,
      In ((lo, hi), power) HVAC_POWER_MAP ->
      inject_Z lo <= temp_c < inject_Z hi ->
      estimate_hvac_power temp_c = power /\
      (forall lo' hi' power',
          In ((lo', hi'), power') HVAC_POWER_MAP ->
          inject_Z lo' <= temp_c < inject_Z hi' ->
          (lo', hi', power') = (lo, hi, power))) /\
  ((forall lo hi power,
      In ((lo, hi), power) HVAC_POWER_MAP ->
      ~ (inject_Z lo <= temp_c < inject_Z hi)) ->
   estimate_hvac_power temp_c = 2.0) /\
  ((temp_c < -30 \/ 50 <= temp_c) <->
   (forall lo hi power,
      In ((lo, hi), power) HVAC_POWER_MAP ->
      ~ (inject_Z lo <= temp_c < inject_Z hi))).
Proof.
  split; [| split].
  - intros lo hi power Hin Hb.
    assert (Huniq : forall b', In b' HVAC_POWER_MAP ->
              in_band (fst (fst b')) (snd (fst b')) temp_c = true ->
              b' = ((lo, hi), power)).
    { intros b' Hb' Ib'.
      apply (HVAC_POWER_MAP_disjoint temp_c); try assumption.
      apply in_band_iff. exact Hb. }
    split.
    + apply (hvac_scan_hit HVAC_POWER_MAP temp_c ((lo, hi), power));
        [exact Hin | apply in_band_iff; exact Hb | exact Huniq].
    + intros lo' hi' power' Hin' Hb'.
      apply (Huniq ((lo', hi'), power') Hin').
      apply in_band_iff. exact Hb'.
  - intros Hnone. apply hvac_scan_miss. intros [[lo hi] p] Hb.
    apply not_true_iff_false. rewrite in_band_iff. apply (Hnone lo hi p Hb).
  - split.
    + intros Hout lo hi power Hin [H1 H2]. unfold HVAC_POWER_MAP in Hin.
      cbn [In] in Hin.
      repeat match goal with
        | H : _ \/ _ |- _ => destruct H
        | H : False |- _ => destruct H
        | H : (_, _) = (_, _) |- _ => inversion H; clear H; subst
        end; unfold inject_Z in H1, H2; lra.
    + intros Hnone.
      destruct (Qlt_le_dec temp_c (-30)) as [Hlo | Hlo]; [now left |].
      destruct (Qlt_le_dec temp_c 50) as [Hhi | Hhi]; [| now right].
      exfalso.
      destruct (estimate_hvac_power_cases temp_c)
        as [[B _] | [[B _] | [[B _] | [[B _] | [[B _] | [[B _]
           | [[B _] | [[B _] | [[B _] | [B _]]]]]]]]]]; try lra.
      * apply (Hnone (-30)%Z (-10)%Z 5.0); [cbn; tauto | exact B].
      * apply (Hnone (-10)%Z 0%Z 4.0); [cbn; tauto | exact B].
      * apply (Hnone 0%Z 5%Z 3.0); [cbn; tauto | exact B].
      * apply (Hnone 5%Z 12%Z 1.5); [cbn; tauto | exact B].
      * apply (Hnone 12%Z 22%Z 0.3); [cbn; tauto | exact B].
      * apply (Hnone 22%Z 28%Z 1.5); [cbn; tauto | exact B].
      * apply (Hnone 28%Z 35%Z 3.0); [cbn; tauto | exact B].
      * apply (Hnone 35%Z 50%Z 4.5); [cbn; tauto | exact B].
Qed.

Lemma estimate_hvac_power_total_witness :
  estimate_hvac_power 15 = 0.3 /\ estimate_hvac_power 100 = 2.0.
Proof.
  split.
  - destruct (estimate_hvac_power_total 15) as [H _].
    apply (H 12%Z 22%Z 0.3); [cbn; tauto | unfold inject_Z; lra].
  - destruct (estimate_hvac_power_total 100) as (_ & H & I).
    apply H. apply I. right. lra.
Defined.

(** ** The energy consumption model *)
Section EnergyFacts.

Lemma v_ms_pos (s : Q) : 0 < s -> 0 < v_ms s.
Proof. intros H. unfold v_ms. apply Qlt_shift_div_l; lra. Qed.

Lemma v_ms_scale (s : Q) : v_ms s == s * (5 # 18).
Proof. unfold v_ms. field. Qed.

Lemma f_aero_nonneg (s w : Q) : 0 <= f_aero s w.
Proof.
  unfold f_aero, AIR_DENSITY_KG_M3, DRAG_COEFFICIENT, FRONTAL_AREA_M2.
  generalize (effective_v s w). intros x. nra.
Qed.

Lemma f_aero_mono (s w1 w2 : Q) :
  0 < s -> 0 <= w1 -> w1 <= w2 -> f_aero s w1 <= f_aero s w2.
Proof.
  intros Hs H1 H12. pose proof (v_ms_pos s Hs) as Hv.
  unfold f_aero, effective_v, AIR_DENSITY_KG_M3, DRAG_COEFFICIENT,
    FRONTAL_AREA_M2.
  generalize dependent (v_ms s). intros v Hv. nra.
Qed.

Lemma f_roll_pos : 0 < f_roll.
Proof. unfold f_roll, ROLLING_RESISTANCE, VEHICLE_MASS_KG. lra. Qed.

Lemma f_grade_scale (e : Q) : f_grade e == e * (2388735 # 100000).
Proof. unfold f_grade, VEHICLE_MASS_KG. field. Qed.

Lemma f_grade_mono (e1 e2 : Q) : e1 <= e2 -> f_grade e1 <= f_grade e2.
Proof. intros H. rewrite !f_grade_scale. lra. Qed.

Lemma f_grade_nonneg (e : Q) : 0 <= e -> 0 <= f_grade e.
Proof. intros H. rewrite f_grade_scale. lra. Qed.

Lemma f_total_pos (s w e : Q) : 0 < f_total s w e.
Proof.
  unfold f_total. pose proof (f_aero_nonneg s w). pose proof f_roll_pos.
  pose proof (max_ge_r (f_grade e) 0). lra.
Qed.

Lemma p_elec_scale (s w e : Q) :
  p_elec s w e == f_total s w e * v_ms s * (1 # 900).
Proof. unfold p_elec, p_mech, DRIVETRAIN_EFFICIENCY. field. Qed.

Lemma p_elec_pos (s w e : Q) : 0 < s -> 0 < p_elec s w e.
Proof.
  intros Hs. rewrite p_elec_scale.
  pose proof (f_total_pos s w e). pose proof (v_ms_pos s Hs). nra.
Qed.

Lemma regen_recovery_uphill (s e : Q) : 0 <= e -> regen_recovery s e = 0.0.
Proof.
  intros He. unfold regen_recovery.
  destruct (Qlt_le_dec (f_grade e) 0) as [H | H]; [| reflexivity].
  pose proof (f_grade_nonneg e He). lra.
Qed.

Lemma p_total_ge_floor (s t w e : Q) : 0.5 <= p_total s t w e.
Proof. unfold p_total. apply max_ge_r. Qed.

Lemma p_total_uphill (s t w e : Q) :
  0 < s -> 0 <= e ->
  p_total s t w e
  = p_elec s w e + estimate_hvac_power t + AUX_POWER_KW - regen_recovery s e
  /\ 0.5 < p_total s t w e.
Proof.
  intros Hs He. unfold p_total.
  pose proof (p_elec_pos s w e Hs). pose proof (estimate_hvac_power_bounds t).
  assert (R : regen_recovery s e == 0)
    by (rewrite (regen_recovery_uphill s e He); reflexivity).
  unfold AUX_POWER_KW in *.
  rewrite max_of_le by lra. split; [reflexivity | lra].
Qed.

Lemma compute_energy_ok (s t w e : Q) :
  0 < s ->
  compute_energy_consumption_kwh_per_km s t w e = Ok (p_total s t w e / s).
Proof.
  intros Hs. unfold compute_energy_consumption_kwh_per_km.
  apply div_ok. lra.
Qed.

Lemma consumption_pos (s t w e : Q) : 0 < s -> 0 < p_total s t w e / s.
Proof.
  intros Hs. pose proof (p_total_ge_floor s t w e).
  apply Qlt_shift_div_l; [exact Hs | lra].
Qed.

End EnergyFacts.

Section EnergyMonotone.

Lemma p_elec_mono_wind (s e w1 w2 : Q) :
  0 < s -> 0 <= w1 -> w1 <= w2 -> p_elec s w1 e <= p_elec s w2 e.
Proof.
  intros Hs H1 H12. rewrite !p_elec_scale. unfold f_total.
  pose proof (f_aero_mono s w1 w2 Hs H1 H12).
  pose proof (v_ms_pos s Hs). nra.
Qed.

Lemma p_elec_mono_grade (s w e1 e2 : Q) :
  0 < s -> e1 <= e2 -> p_elec s w e1 <= p_elec s w e2.
Proof.
  intros Hs H12. rewrite !p_elec_scale. unfold f_total.
  pose proof (max_mono_l (f_grade e1) (f_grade e2) 0 (f_grade_mono e1 e2 H12)).
  pose proof (v_ms_pos s Hs). nra.
Qed.

Lemma p_total_mono_wind (s t e w1 w2 : Q) :
  0 < s -> 0 <= w1 -> w1 <= w2 -> p_total s t w1 e <= p_total s t w2 e.
Proof.
  intros Hs H1 H12. unfold p_total. apply max_mono_l.
  pose proof (p_elec_mono_wind s e w1 w2 Hs H1 H12). lra.
Qed.

Lemma p_total_mono_grade (s t w e1 e2 : Q) :
  0 < s -> 0 <= e1 -> e1 <= e2 -> p_total s t w e1 <= p_total s t w e2.
Proof.
  intros Hs H1 H12. unfold p_total. apply max_mono_l.
  pose proof (p_elec_mono_grade s w e1 e2 Hs H12).
  rewrite (regen_recovery_uphill s e1) by exact H1.
  rewrite (regen_recovery_uphill s e2) by lra. lra.
Qed.

End EnergyMonotone.

(** C1, as the code has it. For every speed above 0, and any temperature,
    wind and grade, with the speed, the wind and the grade of a magnitude
    at which the float arithmetic stays finite (a speed from 1e-50 to 1e50,
    a wind and a grade up to 1e50 either way), the model returns a
    consumption that is strictly positive and at least the power floor
    0.5 kW divided by the speed; on a level or rising road (grade at least
    0) it is strictly above that. *)
Theorem consumption_positive_floor (speed_kmh temp_c wind_ms elev : Q) :
  speed_in_range speed_kmh -> bounded wind_ms -> bounded elev ->
  exists c,
    compute_energy_consumption_kwh_per_km speed_kmh temp_c wind_ms elev = Ok c
    /\ 0 < c
    /\ 0.5 / speed_kmh <= c
    /\ (0 <= elev -> 0.5 / speed_kmh < c).
Proof.
  intros Hr _ _. pose proof (speed_in_range_pos speed_kmh Hr) as Hs.
  exists (p_total speed_kmh temp_c wind_ms elev / speed_kmh).
  pose proof (p_total_ge_floor speed_kmh temp_c wind_ms elev) as Hf.
  split; [apply compute_energy_ok; exact Hs |]. split; [| split].
  - apply consumption_pos. exact Hs.
  - apply div_le_compat; assumption.
  - intros He. apply div_lt_compat; [exact Hs |].
    apply (p_total_uphill speed_kmh temp_c wind_ms elev Hs He).
Qed.

Lemma consumption_positive_floor_witness :
  exists c,
    compute_energy_consumption_kwh_per_km 60 15 0 0 = Ok c
    /\ 0 < c /\ 0.5 / 60 <= c /\ (0 <= 0 -> 0.5 / 60 < c).
Proof. apply (consumption_positive_floor 60 15 0 0); in_domain. Defined.

(** C1 as stated fails on a descent: at 60 km/h, 15 degrees, no wind and a
    grade of -50 the recovery exceeds the demand, the power is the floor
    0.5 kW itself, and the consumption is 0.5 / 60: not above the floor,
    whether the floor is read in kW or in kWh/km. *)
Lemma consumption_floor_attained :
  exists c,
    compute_energy_consumption_kwh_per_km 60 15 0 (-50) = Ok c
    /\ c == 0.5 / 60
    /\ ~ (0.5 / 60 < c)
    /\ ~ (0.5 < c)
    /\ speed_in_range 60 /\ bounded 0 /\ bounded (-50).
Proof.
  eexists. split; [vm_compute; reflexivity |].
  split; [reflexivity |].
  split; [intros H; vm_compute in H; discriminate |].
  split; [intros H; vm_compute in H; discriminate |].
  split; [in_domain |]. split; in_domain.
Qed.

(** C5. At a speed above 0 and any temperature, the consumption does not
    decrease when the wind speed grows among non-negative values (any grade
    held fixed), nor when the grade grows among non-negative values (any
    wind held fixed); the speed, the winds and the grades are of a
    magnitude at which the float arithmetic stays finite (a speed from
    1e-50 to 1e50, winds and grades up to 1e50). *)
Theorem consumption_monotone (speed_kmh temp_c : Q) :
  speed_in_range speed_kmh ->
  (forall elev w1 w2, bounded elev -> 0 <= w1 -> w1 <= w2 -> w2 <= LIMIT ->
     exists c1 c2,
       compute_energy_consumption_kwh_per_km speed_kmh temp_c w1 elev = Ok c1
       /\ compute_energy_consumption_kwh_per_km speed_kmh temp_c w2 elev = Ok c2
       /\ c1 <= c2)
  /\
  (forall wind_ms g1 g2, bounded wind_ms -> 0 <= g1 -> g1 <= g2 -> g2 <= LIMIT ->
     exists c1 c2,
       compute_energy_consumption_kwh_per_km speed_kmh temp_c wind_ms g1 = Ok c1
       /\ compute_energy_consumption_kwh_per_km speed_kmh temp_c wind_ms g2 = Ok c2
       /\ c1 <= c2).
Proof.
  intros Hr. pose proof (speed_in_range_pos speed_kmh Hr) as Hs. split.
  - intros elev w1 w2 _ H1 H12 _.
    exists (p_total speed_kmh temp_c w1 elev / speed_kmh),
           (p_total speed_kmh temp_c w2 elev / speed_kmh).
    repeat split; try (apply compute_energy_ok; exact Hs).
    apply div_le_compat; [exact Hs |]. now apply p_total_mono_wind.
  - intros wind_ms g1 g2 _ H1 H12 _.
    exists (p_total speed_kmh temp_c wind_ms g1 / speed_kmh),
           (p_total speed_kmh temp_c wind_ms g2 / speed_kmh).
    repeat split; try (apply compute_energy_ok; exact Hs).
    apply div_le_compat; [exact Hs |]. now apply p_total_mono_grade.
Qed.

Lemma consumption_monotone_witness :
  (exists c1 c2,
     compute_energy_consumption_kwh_per_km 60 15 0 2 = Ok c1
     /\ compute_energy_consumption_kwh_per_km 60 15 3 2 = Ok c2 /\ c1 <= c2)
  /\
  (exists c1 c2,
     compute_energy_consumption_kwh_per_km 60 15 3 0 = Ok c1
     /\ compute_energy_consumption_kwh_per_km 60 15 3 5 = Ok c2 /\ c1 <= c2).
Proof.
  assert (Hs : speed_in_range 60) by in_domain.
  destruct (consumption_monotone 60 15 Hs) as [Hw Hg]. split.
  - apply (Hw 2 0 3); first [lra | in_domain].
  - apply (Hg 3 0 5); first [lra | in_domain].
Defined.

(** ** The range estimator *)
Section RangeFacts.

(** The weighted average is always computed, and is positive. *)
Lemma avg_ok (t w : Q) :
  exists c1 c2 c3,
    compute_energy_consumption_kwh_per_km 35 t w 2.0 = Ok c1
    /\ compute_energy_consumption_kwh_per_km 60 t w 5.0 = Ok c2
    /\ compute_energy_consumption_kwh_per_km 100 t w 3.0 = Ok c3
    /\ avg t w = Ok (0.40 * c1 + 0.40 * c2 + 0.20 * c3)
    /\ 0 < 0.40 * c1 + 0.40 * c2 + 0.20 * c3.
Proof.
  assert (H35 : 0 < 35) by lra. assert (H60 : 0 < 60) by lra.
  assert (H100 : 0 < 100) by lra.
  pose proof (compute_energy_ok 35 t w 2.0 H35) as E1.
  pose proof (compute_energy_ok 60 t w 5.0 H60) as E2.
  pose proof (compute_energy_ok 100 t w 3.0 H100) as E3.
  pose proof (consumption_pos 35 t w 2.0 H35) as P1.
  pose proof (consumption_pos 60 t w 5.0 H60) as P2.
  pose proof (consumption_pos 100 t w 3.0 H100) as P3.
  eexists. eexists. eexists. repeat (split; [eassumption |]). split.
  - unfold avg. rewrite E1, E2, E3. reflexivity.
  - lra.
Qed.

Lemma calculate_range_ok (soc soh t w f : Q) :
  exists a,
    avg t w = Ok a /\ 0 < a
    /\ calculate_range_km soc soh t w f = Ok (max (usable_kwh soc soh f / a) 0).
Proof.
  destruct (avg_ok t w) as (c1 & c2 & c3 & _ & _ & _ & Ea & Pa).
  eexists. split; [exact Ea |]. split; [exact Pa |].
  unfold calculate_range_km. rewrite Ea. cbn [bind].
  destruct (Qlt_le_dec 0 _) as [H | H]; [| lra].
  rewrite div_ok by lra. reflexivity.
Qed.

Lemma usable_soc_reserve (soc : Q) :
  soc <= RESERVE_SOC_PCT -> usable_soc soc == 0.
Proof.
  intros H. unfold usable_soc, max.
  destruct (Qlt_le_dec (soc - RESERVE_SOC_PCT) 0); lra.
Qed.

Lemma usable_soc_nonneg (soc : Q) : 0 <= usable_soc soc.
Proof. apply max_ge_r. Qed.

(** The usable energy is linear in the fraction. *)
Lemma usable_kwh_linear (soc soh f : Q) :
  usable_kwh soc soh f == soh * usable_soc soc * (1 # 100) * f.
Proof. unfold usable_kwh, BATTERY_CAPACITY_KWH. field. Qed.

Lemma clamped_range_mono (soc soh a f1 f2 : Q) :
  0 < a -> 0 < f1 -> f1 <= f2 ->
  max (usable_kwh soc soh f1 / a) 0 <= max (usable_kwh soc soh f2 / a) 0.
Proof.
  intros Ha H1 H12.
  pose proof (usable_kwh_linear soc soh f1) as L1.
  pose proof (usable_kwh_linear soc soh f2) as L2.
  set (k := soh * usable_soc soc * (1 # 100)) in *.
  destruct (Qlt_le_dec k 0) as [Hk | Hk].
  - assert (N1 : usable_kwh soc soh f1 / a <= 0).
    { apply Qle_shift_div_r; [exact Ha | nra]. }
    assert (N2 : usable_kwh soc soh f2 / a <= 0).
    { apply Qle_shift_div_r; [exact Ha | nra]. }
    unfold max.
    destruct (Qlt_le_dec (usable_kwh soc soh f1 / a) 0),
      (Qlt_le_dec (usable_kwh soc soh f2 / a) 0); lra.
  - apply max_mono_l. apply div_le_compat; [exact Ha | nra].
Qed.

End RangeFacts.

(** C2. When the state of charge is at or below the reserve threshold (5%),
    the estimator returns 0, whatever the state of health, temperature, wind
    and fraction are, as long as the readings, the wind and the fraction
    are of a magnitude at which the float arithmetic stays finite (up to
    1e50 either way). *)
Theorem range_zero_within_reserve (soc soh temp_c wind_ms energy_fraction : Q) :
  soc <= RESERVE_SOC_PCT ->
  bounded soc -> bounded soh -> bounded wind_ms -> bounded energy_fraction ->
  exists r,
    calculate_range_km soc soh temp_c wind_ms energy_fraction = Ok r /\ r == 0.
Proof.
  intros Hsoc _ _ _ _.
  destruct (calculate_range_ok soc soh temp_c wind_ms energy_fraction)
    as (a & _ & Pa & E).
  eexists. split; [exact E |].
  assert (U : usable_kwh soc soh energy_fraction / a == 0).
  { rewrite usable_kwh_linear, (usable_soc_reserve soc Hsoc). field. lra. }
  unfold max. destruct (Qlt_le_dec _ 0); [reflexivity | exact U].
Qed.

Lemma range_zero_within_reserve_witness :
  exists r, calculate_range_km 5 95 15 3 1 = Ok r /\ r == 0.
Proof.
  apply (range_zero_within_reserve 5 95 15 3 1); in_domain.
Defined.

(** C3. With state of charge, state of health, temperature and wind fixed,
    the range does not decrease with the usable-energy fraction: for
    fractions 0 < f1 <= f2 <= 1 the range at f1 is at most the range at f2;
    so the ranges at 0.25, 0.50, 0.75 and 1.00 are in non-decreasing
    order.  The readings and the wind are of a magnitude at which the float
    arithmetic stays finite (up to 1e50 either way). *)
Theorem range_monotone_in_fraction (soc soh temp_c wind_ms : Q) :
  bounded soc -> bounded soh -> bounded wind_ms ->
  (forall f1 f2, 0 < f1 -> f1 <= f2 -> f2 <= 1 ->
     exists r1 r2,
       calculate_range_km soc soh temp_c wind_ms f1 = Ok r1
       /\ calculate_range_km soc soh temp_c wind_ms f2 = Ok r2
       /\ r1 <= r2)
  /\
  (exists r100 r75 r50 r25,
     calculate_range_km soc soh temp_c wind_ms 1.00 = Ok r100
     /\ calculate_range_km soc soh temp_c wind_ms 0.75 = Ok r75
     /\ calculate_range_km soc soh temp_c wind_ms 0.50 = Ok r50
     /\ calculate_range_km soc soh temp_c wind_ms 0.25 = Ok r25
     /\ r25 <= r50 /\ r50 <= r75 /\ r75 <= r100).
Proof.
  intros _ _ _.
  assert (M : forall f1 f2, 0 < f1 -> f1 <= f2 ->
     exists r1 r2,
       calculate_range_km soc soh temp_c wind_ms f1 = Ok r1
       /\ calculate_range_km soc soh temp_c wind_ms f2 = Ok r2
       /\ r1 <= r2).
  { intros f1 f2 H1 H12.
    destruct (calculate_range_ok soc soh temp_c wind_ms f1) as (a & Ea & Pa & E1).
    destruct (calculate_range_ok soc soh temp_c wind_ms f2) as (a' & Ea' & _ & E2).
    rewrite Ea in Ea'. injection Ea' as <-.
    eexists. eexists. split; [exact E1 |]. split; [exact E2 |].
    apply clamped_range_mono; assumption. }
  split.
  - intros f1 f2 H1 H12 _. apply M; assumption.
  - destruct (M 0.25 0.50) as (r25 & r50 & E25 & E50 & L1); [lra | lra |].
    destruct (M 0.50 0.75) as (r50' & r75 & E50' & E75 & L2); [lra | lra |].
    destruct (M 0.75 1.00) as (r75' & r100 & E75' & E100 & L3); [lra | lra |].
    rewrite E50 in E50'. injection E50' as <-.
    rewrite E75 in E75'. injection E75' as <-.
    exists r100, r75, r50, r25. repeat split; assumption.
Qed.

Lemma range_monotone_in_fraction_witness :
  exists r1 r2,
    calculate_range_km 80 95 15 0 0.5 = Ok r1
    /\ calculate_range_km 80 95 15 0 1 = Ok r2
    /\ r1 <= r2.
Proof.
  destruct (range_monotone_in_fraction 80 95 15 0) as [M _];
    [in_domain | in_domain | in_domain |].
  apply (M 0.5 1); lra.
Defined.

(** C4. The range is the usable energy, capacity x (state of health / 100)
    x (max(state of charge - reserve, 0) / 100) x fraction, divided by the
    weighted average 0.40 c1 + 0.40 c2 + 0.20 c3 of the consumptions at
    35, 60 and 100 km/h, clamped at 0 from below; the clamp is idle when the
    state of health and the fraction are not negative.  This is for
    readings, a wind and a fraction of a magnitude at which the float
    arithmetic stays finite (up to 1e50 either way).  With state of charge
    80, state of health 95 and fraction 1.00 the usable energy is 71.25 kWh
    and the range at 15 degrees and no wind is 71.25 divided by the weighted
    average there. *)
Theorem range_is_usable_energy_over_average :
  (forall soc soh temp_c wind_ms energy_fraction,
     bounded soc -> bounded soh -> bounded wind_ms ->
     bounded energy_fraction ->
     exists c1 c2 c3 r,
       compute_energy_consumption_kwh_per_km 35 temp_c wind_ms 2.0 = Ok c1
       /\ compute_energy_consumption_kwh_per_km 60 temp_c wind_ms 5.0 = Ok c2
       /\ compute_energy_consumption_kwh_per_km 100 temp_c wind_ms 3.0 = Ok c3
       /\ calculate_range_km soc soh temp_c wind_ms energy_fraction = Ok r
       /\ r == Qmax (BATTERY_CAPACITY_KWH * (soh / 100)
                     * (Qmax (soc - RESERVE_SOC_PCT) 0 / 100) * energy_fraction
                     / (0.40 * c1 + 0.40 * c2 + 0.20 * c3)) 0
       /\ (0 <= soh -> 0 <= energy_fraction ->
           r == BATTERY_CAPACITY_KWH * (soh / 100)
                * (Qmax (soc - RESERVE_SOC_PCT) 0 / 100) * energy_fraction
                / (0.40 * c1 + 0.40 * c2 + 0.20 * c3)))
  /\
  (BATTERY_CAPACITY_KWH == 100 /\ RESERVE_SOC_PCT == 5
   /\ usable_kwh 80 95 1.00 == 71.25
   /\ exists a r,
       avg 15 0 = Ok a
       /\ calculate_range_km 80 95 15 0 1.00 = Ok r
       /\ r == 71.25 / a).
Proof.
  split.
  - intros soc soh t w f _ _ _ _.
    destruct (avg_ok t w) as (c1 & c2 & c3 & E1 & E2 & E3 & Ea & Pa).
    destruct (calculate_range_ok soc soh t w f) as (a & Ea' & _ & Er).
    rewrite Ea in Ea'. injection Ea' as <-.
    exists c1, c2, c3. eexists. repeat (split; [eassumption |]).
    set (A := 0.40 * c1 + 0.40 * c2 + 0.20 * c3) in *.
    assert (U : usable_kwh soc soh f / A
                == BATTERY_CAPACITY_KWH * (soh / 100)
                   * (Qmax (soc - RESERVE_SOC_PCT) 0 / 100) * f / A).
    { unfold usable_kwh, usable_soc.
      rewrite (max_eq_Qmax (soc - RESERVE_SOC_PCT) 0). field. lra. }
    split.
    + rewrite max_eq_Qmax, U. reflexivity.
    + intros Hsoh Hf. rewrite <- U. rewrite max_of_le; [reflexivity |].
      apply Qle_shift_div_l; [exact Pa |].
      rewrite usable_kwh_linear. pose proof (usable_soc_nonneg soc).
      assert (0 <= soh * usable_soc soc) by nra. nra.
  - split; [reflexivity |]. split; [reflexivity |].
    split; [vm_compute; reflexivity |].
    eexists. eexists. split; [vm_compute; reflexivity |].
    split; vm_compute; reflexivity.
Qed.

Lemma range_is_usable_energy_over_average_witness :
  exists c1 c2 c3 r,
    compute_energy_consumption_kwh_per_km 35 15 0 2.0 = Ok c1
    /\ compute_energy_consumption_kwh_per_km 60 15 0 5.0 = Ok c2
    /\ compute_energy_consumption_kwh_per_km 100 15 0 3.0 = Ok c3
    /\ calculate_range_km 80 95 15 0 1 = Ok r
    /\ r == BATTERY_CAPACITY_KWH * (95 / 100)
            * (Qmax (80 - RESERVE_SOC_PCT) 0 / 100) * 1
            / (0.40 * c1 + 0.40 * c2 + 0.20 * c3).
Proof.
  destruct range_is_usable_energy_over_average as [F _].
  destruct (F 80 95 15 0 1) as (c1 & c2 & c3 & r & E1 & E2 & E3 & Er & _ & V);
    [in_domain | in_domain | in_domain | in_domain |].
  exists c1, c2, c3, r. repeat (split; [assumption |]). apply V; lra.
Defined.

(** ** The fetch: every path returns one answer per distance *)
Section FetchFacts.
Variable float_of_str : string -> option Q.
Variable post : iso_request -> result response.

Lemma fetch_handler_catches (ds : list Q) (e : exn) :
  fetch_handler ds e = Ok (repeat JNone (length ds)).
Proof. destruct e; reflexivity. Qed.

Lemma fetch_on_table (lat lon : Q) (ds : list Q) (table : geom_dict) :
  fetch_geom_by_distance float_of_str post lat lon ds = Ok table ->
  fetch_valhalla_isodistance float_of_str post lat lon ds
  = Ok (map (find_match table) ds).
Proof.
  intros E. unfold fetch_valhalla_isodistance, fetch_body. rewrite E.
  reflexivity.
Qed.

Lemma fetch_on_failure (lat lon : Q) (ds : list Q) (e : exn) :
  fetch_geom_by_distance float_of_str post lat lon ds = Raise e ->
  fetch_valhalla_isodistance float_of_str post lat lon ds
  = Ok (repeat JNone (length ds)).
Proof.
  intros E. unfold fetch_valhalla_isodistance, fetch_body. rewrite E.
  cbn [bind try_except]. apply fetch_handler_catches.
Qed.

Lemma fetch_matched (lat lon : Q) (ds : list Q) :
  fetch_valhalla_isodistance float_of_str post lat lon ds
  = Ok (map (matched_in (fetch_geom_by_distance float_of_str post lat lon ds))
          ds).
Proof.
  destruct (fetch_geom_by_distance float_of_str post lat lon ds) eqn:E.
  - apply fetch_on_table. exact E.
  - rewrite (fetch_on_failure lat lon ds e E).
    rewrite <- (map_const JNone ds). reflexivity.
Qed.

End FetchFacts.

Lemma lookup_map {A B} (f : A -> B) (l : list A) (i : nat) :
  map f l !! i = option_map f (l !! i).
Proof.
  revert i. induction l as [| x l IH]; intros [| i]; cbn; try reflexivity.
  apply IH.
Qed.

Lemma lookup_repeat_Some {A} (x y : A) (n i : nat) :
  repeat x n !! i = Some y -> y = x.
Proof.
  revert i. induction n as [| n IH]; intros [| i]; cbn; try discriminate.
  - congruence.
  - apply IH.
Qed.

(** ** The band pipeline *)
Section PipelineFacts.

Lemma plan_bands_ok (soc soh t w : Q) (bands : list band) :
  exists planned,
    plan_bands soc soh t w bands = Ok planned
    /\ Forall2 (fun b br =>
                  the_band br = b
                  /\ calculate_range_km soc soh t w (fraction b)
                     = Ok (range_km br)
                  /\ 0 <= range_km br
                  /\ geometry br = None) bands planned.
Proof.
  induction bands as [| b rest (planned & E & F)].
  - exists []. split; [reflexivity | constructor].
  - destruct (calculate_range_ok soc soh t w (fraction b)) as (a & _ & _ & Er).
    eexists. split.
    + cbn [plan_bands]. rewrite Er, E. reflexivity.
    + constructor; [| exact F]. cbn. repeat split; try assumption.
      apply max_ge_r.
Qed.

Lemma store_geometry_middle (pre post : list band_result) (b : band_result)
  (n : nat) (g : value) :
  n = length pre ->
  store_geometry (pre ++ b :: post) n g = Ok (pre ++ set_geometry g b :: post).
Proof.
  intros ->. unfold store_geometry.
  rewrite list_lookup_middle by reflexivity.
  replace (length pre) with (length pre + 0)%nat at 1 by lia.
  rewrite insert_app_r. reflexivity.
Qed.

Lemma mark_viable (b : band_result) : viable b = true -> mark b = b.
Proof. intros H. unfold mark. now rewrite H. Qed.

Lemma mark_not_viable (b : band_result) :
  viable b = false -> mark b = set_geometry JNone b.
Proof. intros H. unfold mark. now rewrite H. Qed.

Lemma select_loop_spec (rest done : list band_result) (st : selection) :
  band_results st = map mark done ++ rest ->
  select_loop (combine (seq (length done) (length rest)) rest) st
  = Ok {| distances_km := distances_km st ++ viable_distances rest;
          valid_indices :=
            valid_indices st ++ viable_indices_from (length done) rest;
          band_results := map mark (done ++ rest) |}.
Proof.
  revert done st. induction rest as [| b rest IH]; intros done st Hst.
  - cbn. destruct st as [ds vs bs]. cbn in *. subst bs.
    rewrite !app_nil_r. reflexivity.
  - cbn [length seq combine select_loop select_step].
    fold (viable b). unfold viable_distances.
    cbn [viable_indices_from List.filter map].
    destruct (viable b) eqn:V.
    + cbn [bind ret].
      specialize (IH (done ++ [b])
        {| distances_km := distances_km st ++ [round1 (range_km b)];
           valid_indices := valid_indices st ++ [length done];
           band_results := band_results st |}).
      rewrite length_app in IH. cbn [length] in IH.
      replace (length done + 1)%nat with (S (length done)) in IH by lia.
      rewrite IH.
      * cbn [distances_km valid_indices band_results].
        unfold viable_distances. rewrite <- !app_assoc. reflexivity.
      * cbn [band_results]. rewrite Hst, map_app. cbn [map].
        rewrite (mark_viable b V), <- app_assoc. reflexivity.
    + rewrite Hst.
      rewrite store_geometry_middle by (now rewrite length_map).
      cbn [bind ret].
      specialize (IH (done ++ [b])
        {| distances_km := distances_km st;
           valid_indices := valid_indices st;
           band_results := map mark done ++ set_geometry JNone b :: rest |}).
      rewrite length_app in IH. cbn [length] in IH.
      replace (length done + 1)%nat with (S (length done)) in IH by lia.
      rewrite IH.
      * cbn [distances_km valid_indices band_results].
        rewrite <- !app_assoc. reflexivity.
      * cbn [band_results]. rewrite map_app. cbn [map].
        rewrite (mark_not_viable b V), <- app_assoc. reflexivity.
Qed.

Lemma select_spec (brs : list band_result) :
  select brs
  = Ok {| distances_km := viable_distances brs;
          valid_indices := viable_indices_from 0 brs;
          band_results := map mark brs |}.
Proof.
  unfold select, enumerate.
  apply (select_loop_spec brs []
           {| distances_km := []; valid_indices := []; band_results := brs |}).
  reflexivity.
Qed.

Lemma assign_nil (brs : list band_result) : assign brs [] = map mark brs.
Proof.
  induction brs as [| b rest IH]; [reflexivity |].
  cbn [assign map]. unfold mark at 1. destruct (viable b); now rewrite IH.
Qed.

Lemma attach_spec (rest pre : list band_result) (gs : list value) :
  attach (combine (viable_indices_from (length pre) rest) gs)
    (pre ++ map mark rest)
  = Ok (pre ++ assign rest gs).
Proof.
  revert pre gs. induction rest as [| b rest IH]; intros pre gs.
  - reflexivity.
  - cbn [viable_indices_from map assign]. destruct (viable b) eqn:V.
    + rewrite (mark_viable b V). destruct gs as [| g gs].
      * cbn [combine attach ret]. now rewrite assign_nil.
      * cbn [combine attach].
        rewrite store_geometry_middle by reflexivity. cbn [bind].
        specialize (IH (pre ++ [set_geometry g b]) gs).
        rewrite length_app in IH. cbn [length] in IH.
        replace (length pre + 1)%nat with (S (length pre)) in IH by lia.
        rewrite <- !app_assoc in IH. exact IH.
    + rewrite (mark_not_viable b V).
      specialize (IH (pre ++ [set_geometry JNone b]) gs).
      rewrite length_app in IH. cbn [length] in IH.
      replace (length pre + 1)%nat with (S (length pre)) in IH by lia.
      rewrite <- !app_assoc in IH. exact IH.
Qed.

Lemma assign_matched (matched : Q -> value) (brs : list band_result) :
  assign brs (map matched (viable_distances brs))
  = map (final_band matched) brs.
Proof.
  induction brs as [| b rest IH]; [reflexivity |].
  unfold viable_distances in *. cbn [assign List.filter map].
  unfold final_band at 1. destruct (viable b); cbn [map]; now rewrite IH.
Qed.

Lemma final_band_range (matched : Q -> value) (b : band_result) :
  range_km (final_band matched b) = range_km b
  /\ the_band (final_band matched b) = the_band b.
Proof. split; reflexivity. Qed.

(** [main] never raises; its bands are the planned bands, each with the
    geometry the engine's answer gives for its distance, and it posts one
    request when some band is viable and none otherwise. *)
Lemma main_bands_spec (float_of_str : string -> option Q)
  (post : iso_request -> result response) (soc soh lat lon t w : Q) :
  exists planned,
    plan_bands soc soh t w ENERGY_BANDS = Ok planned
    /\ main_bands float_of_str post soc soh lat lon t w
       = Ok (map (final_band
                    (matched_in
                       (fetch_geom_by_distance float_of_str post lat lon
                          (viable_distances planned)))) planned,
             match viable_distances planned with
             | [] => []
             | _ :: _ => [ {| loc_lat := lat; loc_lon := lon;
                              contours := viable_distances planned |} ]
             end).
Proof.
  destruct (plan_bands_ok soc soh t w ENERGY_BANDS) as (planned & E & _).
  exists planned. split; [exact E |].
  unfold main_bands. rewrite E. cbn [bind]. rewrite select_spec.
  cbn [bind distances_km valid_indices band_results].
  set (table := fetch_geom_by_distance _ _ _ _ _).
  destruct (viable_distances planned) as [| d ds] eqn:D.
  - cbn [ret]. rewrite <- assign_nil.
    rewrite <- (assign_matched (matched_in table)), D. reflexivity.
  - rewrite fetch_matched. cbn [bind]. fold table.
    pose proof (attach_spec planned [] (map (matched_in table) (d :: ds))) as A.
    cbn [length app] in A. rewrite A. cbn [bind ret].
    rewrite <- D, assign_matched. reflexivity.
Qed.

End PipelineFacts.

(** ** Matching requested and returned distances *)
Section MatchFacts.

Lemma within_compat (a b d : Q) : a == b -> within a d = within b d.
Proof.
  intros H. unfold within.
  destruct (Qlt_le_dec (Qabs (a - d)) 1.0) as [Ha | Ha],
           (Qlt_le_dec (Qabs (b - d)) 1.0) as [Hb | Hb];
    try reflexivity; rewrite H in Ha; lra.
Qed.

Lemma Qeq_bool_compat_l (a b c : Q) : a == b -> Qeq_bool a c = Qeq_bool b c.
Proof.
  intros H. destruct (Qeq_bool a c) eqn:A, (Qeq_bool b c) eqn:B;
    try reflexivity.
  - apply Qeq_bool_iff in A. apply Qeq_bool_neq in B. rewrite H in A.
    contradiction.
  - apply Qeq_bool_iff in B. apply Qeq_bool_neq in A. rewrite H in A.
    contradiction.
Qed.

Lemma Qeq_bool_sym (a b : Q) : Qeq_bool a b = Qeq_bool b a.
Proof.
  destruct (Qeq_bool a b) eqn:A, (Qeq_bool b a) eqn:B; try reflexivity.
  - apply Qeq_bool_iff in A. apply Qeq_bool_neq in B. symmetry in A.
    contradiction.
  - apply Qeq_bool_iff in B. apply Qeq_bool_neq in A. symmetry in B.
    contradiction.
Qed.

(** The matching loop takes the geometry of the first entry within the
    tolerance. *)
Lemma find_match_first_within (table : geom_dict) (d : Q) :
  find_match table d
  = match first_within table d with Some (_, geom) => geom | None => JNone end.
Proof.
  induction table as [| [vd geom] rest IH]; [reflexivity |].
  unfold first_within in *. cbn [find_match find fst]. unfold within at 1.
  destruct (Qlt_le_dec (Qabs (vd - d)) 1.0); [reflexivity | exact IH].
Qed.

(** Storing a pair changes what a request finds only at the stored key. *)
Lemma dict_set_first_within (table : geom_dict) (k : Q) (v : value) (d : Q) :
  first_within (dict_set table k v) d
  = match first_within table d with
    | Some (k0, g0) => if Qeq_bool k0 k then Some (k0, v) else Some (k0, g0)
    | None => if within k d then Some (k, v) else None
    end.
Proof.
  unfold first_within.
  induction table as [| [k1 g1] rest IH]; [reflexivity |].
  cbn [dict_set]. destruct (Qeq_bool k1 k) eqn:K.
  - cbn [find fst]. destruct (within k1 d) eqn:W1.
    + rewrite K. reflexivity.
    + apply Qeq_bool_iff in K.
      assert (Wk : within k d = false)
        by (rewrite <- (within_compat k1 k d K); exact W1).
      destruct (find _ rest) as [[k0 g0] |] eqn:F.
      * apply find_some in F. destruct F as [_ W0]. cbn [fst] in W0.
        destruct (Qeq_bool k0 k) eqn:K0; [| reflexivity].
        apply Qeq_bool_iff in K0.
        rewrite (within_compat k0 k d K0) in W0. congruence.
      * now rewrite Wk.
  - cbn [find fst]. destruct (within k1 d) eqn:W1.
    + now rewrite K.
    + exact IH.
Qed.

Lemma table_of_snoc (pairs : list (Q * value)) (p : Q * value) :
  table_of (pairs ++ [p]) = dict_set (table_of pairs) (fst p) (snd p).
Proof. unfold table_of. rewrite fold_left_app. reflexivity. Qed.

Lemma first_within_snoc (pairs : list (Q * value)) (p : Q * value) (d : Q) :
  first_within (pairs ++ [p]) d
  = match first_within pairs d with
    | Some q => Some q
    | None => if within (fst p) d then Some p else None
    end.
Proof.
  unfold first_within. induction pairs as [| q rest IH]; [reflexivity |].
  cbn [app find]. destruct (within (fst q) d); [reflexivity | exact IH].
Qed.

Lemma last_with_distance_snoc (pairs : list (Q * value)) (p : Q * value)
  (vd : Q) :
  last_with_distance (pairs ++ [p]) vd
  = if Qeq_bool (fst p) vd then Some (snd p) else last_with_distance pairs vd.
Proof.
  unfold last_with_distance. rewrite rev_app_distr. cbn [rev app find].
  destruct (Qeq_bool (fst p) vd); reflexivity.
Qed.

(** The table and the returned pairs agree on every request: the same
    distance decides, and the table holds the last geometry returned
    under it. *)
Lemma table_of_agrees (pairs : list (Q * value)) (d : Q) :
  match first_within (table_of pairs) d, first_within pairs d with
  | None, None => True
  | Some (k, g), Some (vd, _) =>
      k == vd /\ last_with_distance pairs vd = Some g
  | _, _ => False
  end.
Proof.
  induction pairs as [| [k' v'] pairs IH] using rev_ind; [exact I |].
  rewrite table_of_snoc, dict_set_first_within, first_within_snoc.
  cbn [fst snd].
  destruct (first_within (table_of pairs) d) as [[k0 g0] |],
           (first_within pairs d) as [[vd g] |]; try contradiction.
  - destruct IH as [K L]. rewrite last_with_distance_snoc. cbn [fst snd].
    rewrite (Qeq_bool_sym k' vd), <- (Qeq_bool_compat_l k0 vd k' K).
    destruct (Qeq_bool k0 k'); split; auto.
  - destruct (within k' d); [| exact I].
    split; [reflexivity |]. rewrite last_with_distance_snoc. cbn [fst snd].
    now rewrite Qeq_bool_refl.
Qed.

Lemma find_match_reconciled (pairs : list (Q * value)) (d : Q) :
  find_match (table_of pairs) d = reconciled pairs d.
Proof.
  rewrite find_match_first_within. unfold reconciled.
  pose proof (table_of_agrees pairs d) as A.
  destruct (first_within (table_of pairs) d) as [[k0 g0] |],
           (first_within pairs d) as [[vd g] |]; try contradiction.
  - destruct A as [_ L]. now rewrite L.
  - reflexivity.
Qed.

End MatchFacts.

(** ** Answers made of well-formed features *)
Section PairFacts.
Variable float_of_str : string -> option Q.
Variable post : iso_request -> result response.

Lemma getitem_is_object (x : value) (k : string) (v : value) :
  getitem x k = Ok v -> truthy x = true /\ x <> JNone.
Proof.
  destruct x as [| | | | | items]; cbn; try discriminate.
  destruct items; cbn; [discriminate |]. intros _. split; [reflexivity |].
  discriminate.
Qed.

Lemma feature_step_carries (acc : geom_dict) (feat : value) (p : Q * value) :
  carries feat p ->
  feature_step float_of_str acc feat = Ok (dict_set acc (fst p) (snd p)).
Proof.
  intros (props & ty & E1 & E2 & EF & E3 & E4). unfold feature_step.
  rewrite E1. cbn [bind]. rewrite E2. cbn [bind]. rewrite E3. cbn [bind].
  destruct (getitem_is_object _ _ _ E4) as [T _]. rewrite T.
  cbn [is_not_none andb float]. rewrite EF. cbn [bind]. rewrite E4.
  reflexivity.
Qed.

Lemma collect_carries (feats : list value) (pairs : list (Q * value)) :
  Forall2 carries feats pairs ->
  forall acc,
    collect float_of_str feats acc
    = Ok (fold_left (fun d p => dict_set d (fst p) (snd p)) pairs acc).
Proof.
  induction 1 as [| feat p feats pairs C _ IH]; intros acc; [reflexivity |].
  cbn [collect fold_left]. rewrite (feature_step_carries acc feat p C).
  cbn [bind]. apply IH.
Qed.

Lemma fetch_geom_returns_pairs (lat lon : Q) (ds : list Q)
  (pairs : list (Q * value)) :
  returns_pairs
    (post {| loc_lat := lat; loc_lon := lon; contours := ds |}) pairs ->
  fetch_geom_by_distance float_of_str post lat lon ds = Ok (table_of pairs).
Proof.
  intros (resp & geojson & feats & E & S & B & G & F).
  unfold fetch_geom_by_distance. rewrite E. cbn [bind].
  unfold raise_for_status, json. rewrite S, B. cbn [bind]. rewrite G.
  cbn [bind len iter]. apply (collect_carries feats pairs F).
Qed.

Lemma first_within_lookup (pairs : list (Q * value)) (d : Q) (p : Q * value) :
  first_within pairs d = Some p ->
  within (fst p) d = true /\ exists i, pairs !! i = Some p.
Proof.
  intros F. apply find_some in F. destruct F as [Hin W]. split; [exact W |].
  apply list_elem_of_In, list_elem_of_lookup in Hin. exact Hin.
Qed.

Lemma last_with_distance_lookup (pairs : list (Q * value)) (vd : Q)
  (g : value) :
  last_with_distance pairs vd = Some g ->
  exists j k, pairs !! j = Some (k, g) /\ k == vd.
Proof.
  unfold last_with_distance. intros L.
  destruct (find _ (rev pairs)) as [[k g'] |] eqn:F; [| discriminate].
  cbn in L. injection L as ->. apply find_some in F. destruct F as [Hin K].
  apply in_rev, list_elem_of_In, list_elem_of_lookup in Hin.
  destruct Hin as [j Hj]. exists j, k. split; [exact Hj |].
  apply Qeq_bool_iff. exact K.
Qed.

Lemma last_with_distance_found (pairs : list (Q * value)) (p : Q * value) :
  In p pairs -> exists g, last_with_distance pairs (fst p) = Some g.
Proof.
  intros Hin. unfold last_with_distance.
  destruct (find _ (rev pairs)) as [[k g'] |] eqn:F; [now eexists |].
  exfalso. apply in_rev in Hin. apply (find_none _ _ F p) in Hin.
  rewrite Qeq_bool_refl in Hin. discriminate.
Qed.

(** With distinct distances the first pair within the tolerance gives its
    own geometry. *)
Lemma reconciled_distinct (pairs : list (Q * value)) (d vd : Q) (g : value) :
  distinct_distances pairs ->
  first_within pairs d = Some (vd, g) ->
  reconciled pairs d = g.
Proof.
  intros D F. unfold reconciled. rewrite F.
  destruct (first_within_lookup pairs d (vd, g) F) as [_ [i Hi]].
  assert (Hin : In (vd, g) pairs).
  { apply list_elem_of_In, list_elem_of_lookup. now exists i. }
  destruct (last_with_distance_found pairs (vd, g) Hin) as [g' L].
  cbn [fst] in L. rewrite L.
  destruct (last_with_distance_lookup pairs vd g' L) as (j & k & Hj & K).
  assert (i = j) by (apply (D i j (vd, g) (k, g') Hi Hj); cbn; now symmetry).
  subst j. congruence.
Qed.

(** A request is left without geometry exactly when no returned pair is
    within the tolerance. *)
Lemma reconciled_absent (feats : list value) (pairs : list (Q * value))
  (d : Q) :
  Forall2 carries feats pairs ->
  (reconciled pairs d = JNone <-> first_within pairs d = None).
Proof.
  intros C. unfold reconciled. split.
  - destruct (first_within pairs d) as [[vd g] |] eqn:F; [| reflexivity].
    destruct (first_within_lookup pairs d (vd, g) F) as [_ [i Hi]].
    assert (Hin : In (vd, g) pairs).
    { apply list_elem_of_In, list_elem_of_lookup. now exists i. }
    destruct (last_with_distance_found pairs (vd, g) Hin) as [g' L].
    cbn [fst] in L. rewrite L. intros ->.
    destruct (last_with_distance_lookup pairs vd JNone L) as (j & k & Hj & _).
    exfalso.
    destruct (Forall2_lookup_r _ _ _ _ _ C Hj)
      as (feat & _ & (props & ty & _ & _ & _ & _ & T)).
    cbn in T. discriminate.
  - intros ->. reflexivity.
Qed.

End PairFacts.

(** ** Which bands ask for a polygon *)
Section ViableFacts.






End ViableFacts.




Import Samples.

(** C6, as the code has it. When the engine answers with features carrying
    (distance, geometry) pairs, and no returned distance is within 1e-6 km
    of being exactly 1.0 km from a requested one (there the rounding of the
    float difference decides), with all distances up to a million km and
    returned distances that are the same or at least 1e-6 km apart, each
    requested distance is given: nothing, exactly when no returned distance
    is within 1.0 km of it; otherwise the first returned distance within
    1.0 km decides, and the geometry is the last one returned under that
    distance.  When the returned distances are pairwise distinct this is
    the geometry of the first returned pair within 1.0 km.  A request of
    150.0 with a contour at 150.3 is matched; a request of 10.0 with only a
    contour at 50.0 gets nothing. *)
Theorem reconciler_first_within_tolerance :
  (forall float_of_str post lat lon ds pairs,
     returns_pairs
       (post {| loc_lat := lat; loc_lon := lon; contours := ds |}) pairs ->
     well_separated pairs ds ->
     exists gs,
       fetch_valhalla_isodistance float_of_str post lat lon ds = Ok gs
       /\ length gs = length ds
       /\ forall i d, ds !! i = Some d ->
            gs !! i = Some (reconciled pairs d)
            /\ (gs !! i = Some JNone <-> first_within pairs d = None)
            /\ (distinct_distances pairs ->
                forall vd g, first_within pairs d = Some (vd, g) ->
                             gs !! i = Some g))
  /\
  (forall lat lon,
     fetch_valhalla_isodistance no_float
       (answering (collection [feature 150.3 (polygon "a")])) lat lon [150.0]
     = Ok [polygon "a"])
  /\
  (forall lat lon,
     fetch_valhalla_isodistance no_float
       (answering (collection [feature 50.0 (polygon "b")])) lat lon [10.0]
     = Ok [JNone]).
Proof.
  split; [| split].
  - intros float_of_str post lat lon ds pairs R _.
    pose proof (fetch_geom_returns_pairs float_of_str post lat lon ds pairs R)
      as T.
    destruct R as (resp & geojson & feats & _ & _ & _ & _ & C).
    eexists. split; [apply (fetch_on_table _ _ _ _ _ _ T) |].
    split; [apply length_map |].
    intros i d Hd. rewrite lookup_map, Hd. cbn [option_map].
    rewrite find_match_reconciled. split; [reflexivity |]. split.
    + rewrite <- (reconciled_absent feats pairs d C).
      split; [intros E; now injection E | intros ->; reflexivity].
    + intros D vd g F. f_equal. apply (reconciled_distinct pairs d vd g D F).
  - intros lat lon. vm_compute. reflexivity.
  - intros lat lon. vm_compute. reflexivity.
Qed.

Lemma reconciler_first_within_tolerance_witness :
  exists gs,
    fetch_valhalla_isodistance no_float
      (answering (collection [feature 150.3 (polygon "a");
                              feature 50.0 (polygon "b")]))
      0 0 [150.0; 10.0] = Ok gs
    /\ gs !! 0%nat = Some (polygon "a")
    /\ gs !! 1%nat = Some JNone.
Proof.
  destruct reconciler_first_within_tolerance as [H _].
  destruct (H no_float
              (answering (collection [feature 150.3 (polygon "a");
                                      feature 50.0 (polygon "b")]))
              0 0 [150.0; 10.0]
              [(150.3, polygon "a"); (50.0, polygon "b")])
    as (gs & E & _ & M).
  - eexists. eexists. eexists. split; [reflexivity |].
    split; [reflexivity |]. split; [reflexivity |]. split; [reflexivity |].
    repeat constructor; eexists; eexists; repeat split; reflexivity.
  - split.
    + intros p d [<- | [<- | []]] [<- | [<- | []]]; clear_of_tolerance_const.
    + intros p q [<- | [<- | []]] [<- | [<- | []]]; same_or_apart_const.
  - exists gs. split; [exact E |]. split.
    + destruct (M 0%nat 150.0 eq_refl) as [R _]. rewrite R. vm_compute.
      reflexivity.
    + destruct (M 1%nat 10.0 eq_refl) as [R _]. rewrite R. vm_compute.
      reflexivity.
Defined.

(** C6 as stated fails when the engine returns a distance twice: the
    second geometry replaces the first in the table, so the request gets the
    geometry of the second pair, not of the first pair within 1.0 km. *)
Lemma repeated_distance_takes_last_geometry :
  Forall2 carries
    [feature 150.3 (polygon "first"); feature 150.3 (polygon "second")]
    [(150.3, polygon "first"); (150.3, polygon "second")]
  /\ first_within [(150.3, polygon "first"); (150.3, polygon "second")] 150.0
     = Some (150.3, polygon "first")
  /\ fetch_valhalla_isodistance no_float
       (answering
          (collection [feature 150.3 (polygon "first");
                       feature 150.3 (polygon "second")]))
       0 0 [150.0]
     = Ok [polygon "second"]
  /\ polygon "first" <> polygon "second"
  /\ well_separated [(150.3, polygon "first"); (150.3, polygon "second")]
       [150.0].
Proof.
  split; [| split; [| split; [| split]]].
  - repeat constructor; eexists; eexists; repeat split; reflexivity.
  - vm_compute. reflexivity.
  - vm_compute. reflexivity.
  - discriminate.
  - split.
    + intros p d [<- | [<- | []]] [<- | []]; clear_of_tolerance_const.
    + intros p q [<- | [<- | []]] [<- | [<- | []]]; same_or_apart_const.
Qed.
(** ** The theorems at sample inputs *)




(** With the engine down, [main] at 80% charge still reports its four
    ranges (482.9, 362.2, 241.5 and 120.7 km after rounding), asks once for
    the four of them, and leaves every geometry [None]. *)
Example main_bands_engine_down :
  exists brs reqs,
    main_bands no_float unreachable 80 95 0 0 15 0 = Ok (brs, reqs)
    /\ map (fun b => round1 (range_km b)) brs = [482.9; 362.2; 241.5; 120.7]
    /\ map contours reqs = [[482.9; 362.2; 241.5; 120.7]]
    /\ map geometry brs = [Some JNone; Some JNone; Some JNone; Some JNone].
Proof.
  eexists. eexists. split; [vm_compute; reflexivity |].
  repeat split; vm_compute; reflexivity.
Qed.

(** At the reserve no request is made at all. *)
Example main_bands_at_reserve :
  exists brs,
    main_bands no_float (answering (collection [])) 5 95 0 0 15 0 = Ok (brs, [])
    /\ map geometry brs = [Some JNone; Some JNone; Some JNone; Some JNone].
Proof.
  eexists. split; vm_compute; reflexivity.
Qed.

(** The golden scenario: 80% charge, 95% health, 15 degrees, no wind. *)
Example golden_range_km :
  exists r,
    calculate_range_km 80 95 15 0 1.00 = Ok r
    /\ inject_Z 482915 / 1000 <= r < inject_Z 482916 / 1000.
Proof.
  eexists. split; [vm_compute; reflexivity |]. split; vm_compute; congruence.
Qed.

(** * Further properties of the script *)

Import Adapters Output.

(** ** More on the energy model *)
Section EnergyMore.

Lemma regen_recovery_antimono (s e1 e2 : Q) :
  0 < s -> e1 <= e2 -> regen_recovery s e2 <= regen_recovery s e1.
Proof.
  intros Hs H12. pose proof (v_ms_pos s Hs) as Hv.
  pose proof (f_grade_mono e1 e2 H12) as Hg. unfold regen_recovery.
  unfold REGEN_EFFICIENCY.
  destruct (Qlt_le_dec (f_grade e2) 0) as [N2 | N2],
           (Qlt_le_dec (f_grade e1) 0) as [N1 | N1]; try lra.
  - rewrite (Qabs_neg (f_grade e2)) by lra.
    rewrite (Qabs_neg (f_grade e1)) by lra.
    apply div_le_compat; [lra |]. nra.
  - rewrite (Qabs_neg (f_grade e1)) by lra.
    apply Qle_shift_div_l; [lra |]. nra.
Qed.

Lemma p_total_mono_any_grade (s t w e1 e2 : Q) :
  0 < s -> e1 <= e2 -> p_total s t w e1 <= p_total s t w e2.
Proof.
  intros Hs H12. unfold p_total. apply max_mono_l.
  pose proof (p_elec_mono_grade s w e1 e2 Hs H12).
  pose proof (regen_recovery_antimono s e1 e2 Hs H12). lra.
Qed.

Lemma avg_value (t w : Q) :
  avg t w = Ok (0.40 * (p_total 35 t w 2.0 / 35)
                + 0.40 * (p_total 60 t w 5.0 / 60)
                + 0.20 * (p_total 100 t w 3.0 / 100))
  /\ 0 < 0.40 * (p_total 35 t w 2.0 / 35)
         + 0.40 * (p_total 60 t w 5.0 / 60)
         + 0.20 * (p_total 100 t w 3.0 / 100).
Proof.
  assert (H35 : 0 < 35) by lra. assert (H60 : 0 < 60) by lra.
  assert (H100 : 0 < 100) by lra.
  pose proof (consumption_pos 35 t w 2.0 H35).
  pose proof (consumption_pos 60 t w 5.0 H60).
  pose proof (consumption_pos 100 t w 3.0 H100).
  split; [| lra]. unfold avg.
  rewrite !compute_energy_ok by lra. reflexivity.
Qed.

Lemma range_value (soc soh t w f : Q) :
  exists a,
    avg t w = Ok a /\ 0 < a
    /\ calculate_range_km soc soh t w f = Ok (max (usable_kwh soc soh f / a) 0)
    /\ usable_kwh soc soh f == soh * usable_soc soc * (1 # 100) * f
    /\ 0 <= usable_soc soc
    /\ (0 < usable_soc soc <-> 5 < soc).
Proof.
  destruct (calculate_range_ok soc soh t w f) as (a & Ea & Pa & Er).
  exists a. repeat (split; [assumption |]).
  split; [apply usable_kwh_linear |]. split; [apply usable_soc_nonneg |].
  unfold usable_soc, max, RESERVE_SOC_PCT.
  destruct (Qlt_le_dec (soc - 5.0) 0); split; intros; lra.
Qed.

Lemma clamp_mono_num (u1 u2 a : Q) :
  0 < a -> u1 <= u2 -> max (u1 / a) 0 <= max (u2 / a) 0.
Proof. intros Ha H. apply max_mono_l. now apply div_le_compat. Qed.

Lemma quotient_times (u a : Q) : 0 < a -> u / a * a == u.
Proof. intros Ha. field. lra. Qed.

Lemma clamp_antimono_den (u a1 a2 : Q) :
  0 < a1 -> a1 <= a2 -> max (u / a2) 0 <= max (u / a1) 0.
Proof.
  intros H1 H12.
  pose proof (quotient_times u a1 H1) as Q1.
  assert (H2 : 0 < a2) by lra.
  pose proof (quotient_times u a2 H2) as Q2.
  unfold max.
  destruct (Qlt_le_dec (u / a2) 0), (Qlt_le_dec (u / a1) 0); try lra; nra.
Qed.

Lemma clamp_scale (k f a : Q) :
  0 < a -> 0 <= f -> max (k * f / a) 0 == f * max (k * 1 / a) 0.
Proof.
  intros Ha Hf.
  pose proof (quotient_times (k * f) a Ha) as Q1.
  pose proof (quotient_times (k * 1) a Ha) as Q2.
  assert (E : k * f / a == f * (k * 1 / a)) by (field; lra).
  unfold max.
  destruct (Qlt_le_dec (k * f / a) 0), (Qlt_le_dec (k * 1 / a) 0);
    try lra; nra.
Qed.

End EnergyMore.

(** X1. The HVAC power is always between 0.3 and 5.0 kW; it is at its
    lowest, 0.3 kW, exactly from 12 up to 22 degrees, and at its highest,
    5.0 kW, exactly from -30 up to -10 degrees. *)
Theorem hvac_power_range (temp_c : Q) :
  0.3 <= estimate_hvac_power temp_c <= 5.0
  /\ (estimate_hvac_power temp_c == 0.3 <-> 12 <= temp_c < 22)
  /\ (estimate_hvac_power temp_c == 5.0 <-> -30 <= temp_c < -10).
Proof.
  destruct (estimate_hvac_power_cases temp_c)
    as [[B E] | [[B E] | [[B E] | [[B E] | [[B E] | [[B E]
       | [[B E] | [[B E] | [[B E] | [B E]]]]]]]]]];
    rewrite E; repeat split; intros; lra.
Qed.

(** X2. At a speed above 0 the consumption does not decrease when the
    grade grows, over grades of either sign: a steeper descent never costs
    more and a steeper climb never costs less.  The speed, the wind and the
    grades are of a magnitude at which the float arithmetic stays finite (a
    speed from 1e-50 to 1e50, a wind and grades up to 1e50 either way). *)
Theorem consumption_monotone_in_grade (speed_kmh temp_c wind_ms e1 e2 : Q) :
  speed_in_range speed_kmh -> bounded wind_ms -> bounded e1 -> bounded e2 ->
  e1 <= e2 ->
  exists c1 c2,
    compute_energy_consumption_kwh_per_km speed_kmh temp_c wind_ms e1 = Ok c1
    /\ compute_energy_consumption_kwh_per_km speed_kmh temp_c wind_ms e2 = Ok c2
    /\ c1 <= c2.
Proof.
  intros Hr _ _ _ H12. pose proof (speed_in_range_pos speed_kmh Hr) as Hs.
  eexists. eexists.
  split; [apply compute_energy_ok; exact Hs |].
  split; [apply compute_energy_ok; exact Hs |].
  apply div_le_compat; [exact Hs |]. now apply p_total_mono_any_grade.
Qed.

Lemma consumption_monotone_in_grade_witness :
  exists c1 c2,
    compute_energy_consumption_kwh_per_km 60 15 0 (-50) = Ok c1
    /\ compute_energy_consumption_kwh_per_km 60 15 0 (-1) = Ok c2
    /\ c1 <= c2.
Proof.
  apply (consumption_monotone_in_grade 60 15 0 (-50) (-1));
    first [lra | in_domain].
Defined.

Lemma neg_quotient (p s : Q) : 0 < p -> s < 0 -> p / s < 0.
Proof.
  intros Hp Hs.
  assert (E : p / s == - (p / (- s))) by (field; lra).
  rewrite E. assert (0 < p / - s) by (apply Qlt_shift_div_l; lra). lra.
Qed.

(** X3. With a wind and a grade of a magnitude at which the float
    arithmetic stays finite (up to 1e50 either way), the model raises
    [ZeroDivisionError] at speed 0, and at a negative speed (from -1e50 to
    -1e-50) it returns a negative consumption: the script guards neither. *)
Theorem consumption_at_no_speed (speed_kmh temp_c wind_ms elev : Q) :
  bounded wind_ms -> bounded elev ->
  (speed_kmh == 0 ->
   compute_energy_consumption_kwh_per_km speed_kmh temp_c wind_ms elev
   = Raise ZeroDivisionError)
  /\
  (speed_in_range (- speed_kmh) ->
   exists c,
     compute_energy_consumption_kwh_per_km speed_kmh temp_c wind_ms elev = Ok c
     /\ c < 0).
Proof.
  intros _ _. unfold compute_energy_consumption_kwh_per_km. split.
  - intros H. unfold div. apply Qeq_bool_iff in H. now rewrite H.
  - intros Hr. pose proof (speed_in_range_pos _ Hr) as H.
    eexists. split; [apply div_ok; lra |].
    pose proof (p_total_ge_floor speed_kmh temp_c wind_ms elev) as F.
    apply neg_quotient; lra.
Qed.

Lemma consumption_at_no_speed_witness :
  compute_energy_consumption_kwh_per_km 0 15 0 0 = Raise ZeroDivisionError
  /\ exists c,
       compute_energy_consumption_kwh_per_km (-60) 15 0 0 = Ok c /\ c < 0.
Proof.
  split.
  - apply (consumption_at_no_speed 0 15 0 0); first [reflexivity | in_domain].
  - apply (consumption_at_no_speed (-60) 15 0 0); in_domain.
Defined.

Lemma max_wd (x y : Q) : x == y -> max x 0 == max y 0.
Proof.
  intros E. unfold max.
  destruct (Qlt_le_dec x 0), (Qlt_le_dec y 0); lra.
Qed.

Lemma clamp_mono_factor (k x1 x2 a : Q) :
  0 < a -> x1 <= x2 -> 0 <= x1 ->
  max (k * x1 / a) 0 <= max (k * x2 / a) 0.
Proof.
  intros Ha H12 H1. destruct (Qlt_le_dec k 0) as [Hk | Hk].
  - assert (N1 : k * x1 / a <= 0)
      by (apply Qle_shift_div_r; [exact Ha | nra]).
    assert (N2 : k * x2 / a <= 0)
      by (apply Qle_shift_div_r; [exact Ha | nra]).
    unfold max.
    destruct (Qlt_le_dec (k * x1 / a) 0), (Qlt_le_dec (k * x2 / a) 0); lra.
  - apply clamp_mono_num; [exact Ha | nra].
Qed.

Lemma quotient_pos_iff (u a : Q) : 0 < a -> (0 < u / a <-> 0 < u).
Proof.
  intros Ha. pose proof (quotient_times u a Ha) as E.
  generalize dependent (u / a). intros x E. split; intros H; nra.
Qed.

Lemma product_pos_iff (k us : Q) :
  0 <= us -> (0 < k * us <-> 0 < us /\ 0 < k).
Proof.
  intros Hus. destruct (Qlt_le_dec 0 k), (Qlt_le_dec 0 us); split;
    try (intros [? ?]); intros; try split; nra.
Qed.

(** X4. For readings, a wind and a fraction of a magnitude at which the
    float arithmetic stays finite (up to 1e50 either way), the range is
    never negative; it is 0 when the state of charge is not above the
    reserve or the state of health and the fraction have no positive
    product; and it is positive when the state of charge is above the
    reserve and the state of health and the fraction are at least 1e-50. *)
Theorem range_sign (soc soh temp_c wind_ms energy_fraction : Q) :
  bounded soc -> bounded soh -> bounded wind_ms -> bounded energy_fraction ->
  exists r,
    calculate_range_km soc soh temp_c wind_ms energy_fraction = Ok r
    /\ 0 <= r
    /\ (soc <= 5 \/ soh * energy_fraction <= 0 -> r == 0)
    /\ (5 < soc -> share_in_range soh -> share_in_range energy_fraction ->
        0 < r).
Proof.
  intros _ _ _ _.
  destruct (range_value soc soh temp_c wind_ms energy_fraction)
    as (a & _ & Pa & Er & L & N & S).
  eexists. split; [exact Er |]. split; [apply max_ge_r |].
  assert (P : 0 < usable_kwh soc soh energy_fraction / a
              <-> 5 < soc /\ 0 < soh * energy_fraction).
  { rewrite (quotient_pos_iff _ a Pa), <- S.
    rewrite <- (product_pos_iff (soh * energy_fraction) (usable_soc soc) N).
    rewrite L. split; intros H; lra. }
  assert (R : 0 < max (usable_kwh soc soh energy_fraction / a) 0
              <-> 5 < soc /\ 0 < soh * energy_fraction).
  { unfold max. destruct (Qlt_le_dec _ 0) as [H | H].
    - rewrite <- P. split; intros; lra.
    - exact P. }
  pose proof (max_ge_r (usable_kwh soc soh energy_fraction / a) 0) as G.
  split.
  - intros H.
    destruct (Qlt_le_dec 0 (max (usable_kwh soc soh energy_fraction / a) 0))
      as [Pos | NPos]; [| lra].
    apply R in Pos. destruct H; lra.
  - intros Hsoc Hsoh Hf. apply R. split; [exact Hsoc |].
    pose proof (speed_in_range_pos soh Hsoh).
    pose proof (speed_in_range_pos energy_fraction Hf). nra.
Qed.

Lemma range_sign_witness :
  exists r, calculate_range_km 80 95 15 0 1 = Ok r /\ 0 < r.
Proof.
  destruct (range_sign 80 95 15 0 1) as (r & E & _ & _ & P);
    [in_domain | in_domain | in_domain | in_domain |].
  exists r. split; [exact E |]. apply P; first [lra | in_domain].
Defined.

(** X6. The range does not decrease when the state of charge grows; with a
    fraction that is not negative it does not decrease when the state of
    health grows.  The readings, the wind and the fraction are of a
    magnitude at which the float arithmetic stays finite (up to 1e50 either
    way). *)
Theorem range_monotone_in_charge_and_health
  (temp_c wind_ms energy_fraction : Q) :
  bounded wind_ms -> bounded energy_fraction ->
  (forall soh soc1 soc2, bounded soh -> bounded soc1 -> bounded soc2 ->
     soc1 <= soc2 ->
     exists r1 r2,
       calculate_range_km soc1 soh temp_c wind_ms energy_fraction = Ok r1
       /\ calculate_range_km soc2 soh temp_c wind_ms energy_fraction = Ok r2
       /\ r1 <= r2)
  /\
  (forall soc soh1 soh2, bounded soc -> bounded soh1 -> bounded soh2 ->
     0 <= energy_fraction -> soh1 <= soh2 ->
     exists r1 r2,
       calculate_range_km soc soh1 temp_c wind_ms energy_fraction = Ok r1
       /\ calculate_range_km soc soh2 temp_c wind_ms energy_fraction = Ok r2
       /\ r1 <= r2).
Proof.
  intros _ _. split.
  - intros soh soc1 soc2 _ _ _ H12.
    destruct (range_value soc1 soh temp_c wind_ms energy_fraction)
      as (a & Ea & Pa & E1 & L1 & N1 & _).
    destruct (range_value soc2 soh temp_c wind_ms energy_fraction)
      as (a' & Ea' & _ & E2 & L2 & N2 & _).
    rewrite Ea in Ea'. injection Ea' as <-.
    eexists. eexists. split; [exact E1 |]. split; [exact E2 |].
    assert (M : usable_soc soc1 <= usable_soc soc2).
    { unfold usable_soc. apply max_mono_l. lra. }
    assert (U1 : usable_kwh soc1 soh energy_fraction / a
                 == soh * energy_fraction * (1 # 100) * usable_soc soc1 / a)
      by (unfold Qdiv; rewrite L1; ring).
    assert (U2 : usable_kwh soc2 soh energy_fraction / a
                 == soh * energy_fraction * (1 # 100) * usable_soc soc2 / a)
      by (unfold Qdiv; rewrite L2; ring).
    rewrite (max_wd _ _ U1), (max_wd _ _ U2).
    apply clamp_mono_factor; assumption.
  - intros soc soh1 soh2 _ _ _ Hf H12.
    destruct (range_value soc soh1 temp_c wind_ms energy_fraction)
      as (a & Ea & Pa & E1 & L1 & N1 & _).
    destruct (range_value soc soh2 temp_c wind_ms energy_fraction)
      as (a' & Ea' & _ & E2 & L2 & _).
    rewrite Ea in Ea'. injection Ea' as <-.
    eexists. eexists. split; [exact E1 |]. split; [exact E2 |].
    apply clamp_mono_num; [exact Pa |]. rewrite L1, L2.
    generalize dependent (usable_soc soc). intros us _ Hus _.
    assert (0 <= us * energy_fraction) by nra. nra.
Qed.

Lemma range_monotone_in_charge_and_health_witness :
  (exists r1 r2,
     calculate_range_km 40 95 15 0 1 = Ok r1
     /\ calculate_range_km 80 95 15 0 1 = Ok r2 /\ r1 <= r2)
  /\
  (exists r1 r2,
     calculate_range_km 80 70 15 0 1 = Ok r1
     /\ calculate_range_km 80 95 15 0 1 = Ok r2 /\ r1 <= r2).
Proof.
  destruct (range_monotone_in_charge_and_health 15 0 1) as [Hc Hh];
    [in_domain | in_domain |]. split.
  - apply (Hc 95 40 80); first [lra | in_domain].
  - apply (Hh 80 70 95); first [lra | in_domain].
Defined.

(** X7. The range does not grow with the wind: for winds 0 <= w1 <= w2 the
    range at w2 is at most the range at w1.  The readings, the winds and
    the fraction are of a magnitude at which the float arithmetic stays
    finite (up to 1e50). *)
Theorem range_antimonotone_in_wind (soc soh temp_c energy_fraction w1 w2 : Q) :
  bounded soc -> bounded soh -> bounded energy_fraction ->
  0 <= w1 -> w1 <= w2 -> w2 <= LIMIT ->
  exists r1 r2,
    calculate_range_km soc soh temp_c w1 energy_fraction = Ok r1
    /\ calculate_range_km soc soh temp_c w2 energy_fraction = Ok r2
    /\ r2 <= r1.
Proof.
  intros _ _ _ H1 H12 _.
  destruct (range_value soc soh temp_c w1 energy_fraction)
    as (a1 & Ea1 & Pa1 & E1 & _).
  destruct (range_value soc soh temp_c w2 energy_fraction)
    as (a2 & Ea2 & Pa2 & E2 & _).
  eexists. eexists. split; [exact E1 |]. split; [exact E2 |].
  apply clamp_antimono_den; [exact Pa1 |].
  destruct (avg_value temp_c w1) as [V1 _].
  destruct (avg_value temp_c w2) as [V2 _].
  rewrite V1 in Ea1. injection Ea1 as <-.
  rewrite V2 in Ea2. injection Ea2 as <-.
  assert (H35 : 0 < 35) by lra. assert (H60 : 0 < 60) by lra.
  assert (H100 : 0 < 100) by lra.
  pose proof (div_le_compat _ _ 35 H35
                (p_total_mono_wind 35 temp_c 2.0 w1 w2 H35 H1 H12)).
  pose proof (div_le_compat _ _ 60 H60
                (p_total_mono_wind 60 temp_c 5.0 w1 w2 H60 H1 H12)).
  pose proof (div_le_compat _ _ 100 H100
                (p_total_mono_wind 100 temp_c 3.0 w1 w2 H100 H1 H12)).
  lra.
Qed.

Lemma range_antimonotone_in_wind_witness :
  exists r1 r2,
    calculate_range_km 80 95 15 0 1 = Ok r1
    /\ calculate_range_km 80 95 15 6 1 = Ok r2
    /\ r2 <= r1.
Proof.
  apply (range_antimonotone_in_wind 80 95 15 1 0 6); first [lra | in_domain].
Defined.

(** ** Rounding and the order of the bands *)
Section RoundingFacts.





End RoundingFacts.

Lemma clamped_range_scales (soc soh a f : Q) :
  0 < a -> 0 <= f ->
  max (usable_kwh soc soh f / a) 0 == f * max (usable_kwh soc soh 1.00 / a) 0.
Proof.
  intros Pa Hf.
  assert (E1 : usable_kwh soc soh f / a
               == soh * usable_soc soc * (1 # 100) * f / a)
    by (unfold Qdiv; rewrite usable_kwh_linear; reflexivity).
  assert (E2 : usable_kwh soc soh 1.00 / a
               == soh * usable_soc soc * (1 # 100) * 1 / a)
    by (unfold Qdiv; rewrite usable_kwh_linear; ring).
  rewrite (max_wd _ _ E1), (max_wd _ _ E2).
  apply clamp_scale; assumption.
Qed.

Lemma Forall2_four {A B} (P : A -> B -> Prop) (x0 x1 x2 x3 : A) (l : list B) :
  Forall2 P [x0; x1; x2; x3] l ->
  exists y0 y1 y2 y3,
    l = [y0; y1; y2; y3] /\ P x0 y0 /\ P x1 y1 /\ P x2 y2 /\ P x3 y3.
Proof.
  intros F. inversion F as [| ? y0 ? l0 H0 F0]; subst.
  inversion F0 as [| ? y1 ? l1 H1 F1]; subst.
  inversion F1 as [| ? y2 ? l2 H2 F2]; subst.
  inversion F2 as [| ? y3 ? l3 H3 F3]; subst.
  inversion F3; subst. exists y0, y1, y2, y3. auto.
Qed.


(** X9. For readings and a wind of a magnitude at which the float
    arithmetic stays finite (up to 1e50 either way), [main] returns the
    four bands in the order of [ENERGY_BANDS]; the ranges never grow along
    the bands, and [max_range], the range of the first band, is the
    largest. *)
Theorem bands_in_decreasing_order (float_of_str : string -> option Q)
  (post : iso_request -> result response) (soc soh lat lon temp_c wind_ms : Q) :
  bounded soc -> bounded soh -> bounded wind_ms ->
  exists b0 b1 b2 b3 reqs,
    main_bands float_of_str post soc soh lat lon temp_c wind_ms
    = Ok ([b0; b1; b2; b3], reqs)
    /\ map the_band [b0; b1; b2; b3] = ENERGY_BANDS
    /\ range_km b3 <= range_km b2 /\ range_km b2 <= range_km b1
    /\ range_km b1 <= range_km b0
    /\ max_range [b0; b1; b2; b3] = range_km b0
    /\ forall b, In b [b0; b1; b2; b3] -> range_km b <= max_range [b0; b1; b2; b3].
Proof.
  intros _ _ _.
  destruct (main_bands_spec float_of_str post soc soh lat lon temp_c wind_ms)
    as (planned & Ep & Em).
  destruct (plan_bands_ok soc soh temp_c wind_ms ENERGY_BANDS)
    as (planned' & Ep' & F).
  rewrite Ep in Ep'. injection Ep' as <-. clear Ep.
  destruct (Forall2_four _ _ _ _ _ _ F)
    as (p0 & p1 & p2 & p3 & -> & (B0 & C0 & _) & (B1 & C1 & _)
        & (B2 & C2 & _) & (B3 & C3 & _)).
  rewrite <- B0 in C0. rewrite <- B1 in C1. rewrite <- B2 in C2.
  rewrite <- B3 in C3.
  destruct (range_value soc soh temp_c wind_ms 1.00) as (a & Ea & Pa & E0 & _).
  destruct (range_value soc soh temp_c wind_ms 0.75) as (a1 & Ea1 & _ & E1 & _).
  destruct (range_value soc soh temp_c wind_ms 0.50) as (a2 & Ea2 & _ & E2 & _).
  destruct (range_value soc soh temp_c wind_ms 0.25) as (a3 & Ea3 & _ & E3 & _).
  rewrite Ea in Ea1, Ea2, Ea3.
  injection Ea1 as <-. injection Ea2 as <-. injection Ea3 as <-.
  rewrite B0 in C0. rewrite B1 in C1. rewrite B2 in C2. rewrite B3 in C3.
  cbn [fraction] in C0, C1, C2, C3.
  rewrite E0 in C0. rewrite E1 in C1. rewrite E2 in C2. rewrite E3 in C3.
  injection C0 as R0. injection C1 as R1. injection C2 as R2.
  injection C3 as R3.
  pose proof (clamped_range_scales soc soh a 0.75 Pa) as S1.
  pose proof (clamped_range_scales soc soh a 0.50 Pa) as S2.
  pose proof (clamped_range_scales soc soh a 0.25 Pa) as S3.
  pose proof (max_ge_r (usable_kwh soc soh 1.00 / a) 0) as P0.
  rewrite R0 in S1, S2, S3, P0. rewrite R1 in S1. rewrite R2 in S2.
  rewrite R3 in S3.
  assert (Q1 := S1 ltac:(lra)). assert (Q2 := S2 ltac:(lra)).
  assert (Q3 := S3 ltac:(lra)).
  clear S1 S2 S3 R0 R1 R2 R3 E0 E1 E2 E3 Ea.
  eexists. eexists. eexists. eexists. eexists. split; [exact Em |].
  split; [cbn [map]; unfold final_band, set_geometry; cbn [the_band];
          now rewrite B0, B1, B2, B3 |].
  change (range_km (final_band ?m p0)) with (range_km p0).
  unfold max_range, final_band, set_geometry. cbn [range_km].
  split; [lra |]. split; [lra |]. split; [lra |].
  split; [reflexivity |].
  intros b [<- | [<- | [<- | [<- | []]]]]; cbn [range_km]; lra.
Qed.

Lemma bands_in_decreasing_order_witness :
  exists b0 b1 b2 b3 reqs,
    main_bands no_float unreachable 80 95 0 0 15 0
    = Ok ([b0; b1; b2; b3], reqs)
    /\ range_km b3 <= range_km b2 /\ range_km b2 <= range_km b1
    /\ range_km b1 <= range_km b0.
Proof.
  destruct (bands_in_decreasing_order no_float unreachable 80 95 0 0 15 0)
    as (b0 & b1 & b2 & b3 & reqs & E & _ & L3 & L2 & L1 & _);
    [in_domain | in_domain | in_domain |].
  exists b0, b1, b2, b3, reqs. auto.
Defined.

(** X10. For any list of bands, with readings, a wind and fractions of a
    magnitude at which the float arithmetic stays finite (up to 1e50 either
    way), the planner returns one result per band, in the same order, each
    with the range computed for its fraction, which is not negative, and
    with no geometry yet. *)
Theorem plan_bands_keeps_order (soc soh temp_c wind_ms : Q) (bands : list band) :
  bounded soc -> bounded soh -> bounded wind_ms ->
  Forall (fun b => bounded (fraction b)) bands ->
  exists planned,
    plan_bands soc soh temp_c wind_ms bands = Ok planned
    /\ map the_band planned = bands
    /\ length planned = length bands
    /\ Forall (fun p =>
                 calculate_range_km soc soh temp_c wind_ms
                   (fraction (the_band p)) = Ok (range_km p)
                 /\ 0 <= range_km p
                 /\ geometry p = None) planned.
Proof.
  intros _ _ _ _.
  destruct (plan_bands_ok soc soh temp_c wind_ms bands) as (planned & E & F).
  exists planned. split; [exact E |].
  clear E. induction F as [| b p bands planned (B & R & P & G) F IH].
  - repeat split. constructor.
  - destruct IH as (M & L & A). cbn [map length]. rewrite M, L, B.
    repeat split. constructor; [| exact A]. rewrite B. auto.
Qed.

Lemma plan_bands_keeps_order_witness :
  exists planned,
    plan_bands 80 95 15 0 ENERGY_BANDS = Ok planned
    /\ map the_band planned = ENERGY_BANDS
    /\ length planned = 4%nat.
Proof.
  destruct (plan_bands_keeps_order 80 95 15 0 ENERGY_BANDS)
    as (planned & E & M & L & _);
    [in_domain | in_domain | in_domain | repeat constructor; in_domain |].
  exists planned. auto.
Defined.

(** ** The table of returned geometries, for any response *)
Section TableFacts.
Variable float_of_str : string -> option Q.

Lemma collect_app (l1 l2 : list value) (acc : geom_dict) :
  collect float_of_str (l1 ++ l2) acc
  = do d <- collect float_of_str l1 acc; collect float_of_str l2 d.
Proof.
  revert acc. induction l1 as [| x l1 IH]; intros acc; [reflexivity |].
  cbn [app collect]. destruct (feature_step float_of_str acc x); cbn [bind];
    [apply IH | reflexivity].
Qed.

(** What one feature can do to the table. *)
Lemma feature_step_ok (acc d' : geom_dict) (feat : value) :
  feature_step float_of_str acc feat = Ok d' ->
  d' = acc
  \/ exists k geom ty,
       d' = dict_set acc k geom /\ getitem geom "type" = Ok ty.
Proof.
  unfold feature_step.
  destruct (get feat "properties" (JDict [])) as [props |]; [| discriminate].
  cbn [bind].
  destruct (get props "contour" JNone) as [c |]; [| discriminate]. cbn [bind].
  destruct (get feat "geometry" JNone) as [g |]; [| discriminate]. cbn [bind].
  destruct (is_not_none c && truthy g).
  - destruct (float float_of_str c) as [k |]; [| discriminate]. cbn [bind].
    destruct (getitem g "type") as [ty |] eqn:T; [| discriminate].
    cbn [bind ret]. intros E. injection E as <-. right. now exists k, g, ty.
  - cbn [ret]. intros E. injection E as <-. now left.
Qed.

Lemma dict_set_keys_in (d : geom_dict) (k x : Q) (v : value) :
  InA Qeq x (map fst (dict_set d k v)) -> InA Qeq x (map fst d) \/ x == k.
Proof.
  induction d as [| [k' v'] rest IH]; cbn [dict_set map fst].
  - intros H. inversion H as [? ? E | ? ? H']; subst; [now right |].
    inversion H'.
  - destruct (Qeq_bool k' k); cbn [map fst]; [now left |].
    intros H. inversion H as [? ? E | ? ? H']; subst.
    + left. now constructor.
    + destruct (IH H') as [I | I]; [left; now constructor 2 | now right].
Qed.

Lemma dict_set_keys_distinct (d : geom_dict) (k : Q) (v : value) :
  NoDupA Qeq (map fst d) -> NoDupA Qeq (map fst (dict_set d k v)).
Proof.
  induction d as [| [k' v'] rest IH]; cbn [dict_set map fst]; intros N.
  - constructor; [intros H; inversion H | constructor].
  - inversion N as [| ? ? Hnot N']; subst.
    destruct (Qeq_bool k' k) eqn:K; cbn [map fst].
    + now constructor.
    + constructor; [| now apply IH].
      intros H. apply dict_set_keys_in in H. destruct H as [H | H].
      * contradiction.
      * apply Qeq_bool_neq in K. contradiction.
Qed.

Lemma dict_set_values (P : value -> Prop) (d : geom_dict) (k : Q) (v : value) :
  P v -> Forall (fun p => P (snd p)) d ->
  Forall (fun p => P (snd p)) (dict_set d k v).
Proof.
  intros Hv. induction d as [| [k' v'] rest IH]; cbn [dict_set]; intros F.
  - constructor; [exact Hv | constructor].
  - inversion F as [| ? ? H F']; subst.
    destruct (Qeq_bool k' k); constructor; auto.
Qed.

(** The table keeps its keys distinct and holds only objects with a
    ["type"]. *)
Lemma collect_table_ok (feats : list value) (acc d : geom_dict) :
  NoDupA Qeq (map fst acc)
  /\ Forall (fun p => exists ty, getitem (snd p) "type" = Ok ty) acc ->
  collect float_of_str feats acc = Ok d ->
  NoDupA Qeq (map fst d)
  /\ Forall (fun p => exists ty, getitem (snd p) "type" = Ok ty) d.
Proof.
  revert acc. induction feats as [| feat rest IH]; intros acc A E.
  - cbn in E. injection E as <-. exact A.
  - cbn [collect] in E.
    destruct (feature_step float_of_str acc feat) as [d' |] eqn:S;
      [| discriminate].
    cbn [bind] in E. apply (IH d'); [| exact E].
    destruct (feature_step_ok _ _ _ S) as [-> | (k & g & ty & -> & T)];
      [exact A |].
    destruct A as [N F]. split.
    + now apply dict_set_keys_distinct.
    + apply (dict_set_values (fun v => exists ty, getitem v "type" = Ok ty));
        [now exists ty | exact F].
Qed.

End TableFacts.

Lemma fetch_geom_collect (float_of_str : string -> option Q)
  (post : iso_request -> result response) (lat lon : Q) (ds : list Q)
  (table : geom_dict) :
  fetch_geom_by_distance float_of_str post lat lon ds = Ok table ->
  exists feats, collect float_of_str feats [] = Ok table.
Proof.
  unfold fetch_geom_by_distance.
  destruct (post _) as [r |]; [| discriminate]. cbn [bind].
  destruct (raise_for_status r); [| discriminate]. cbn [bind].
  destruct (json r) as [geojson |]; [| discriminate]. cbn [bind].
  destruct (get geojson "features" (JList [])) as [features |];
    [| discriminate].
  cbn [bind]. destruct (len features); [| discriminate]. cbn [bind].
  destruct (iter features) as [feats |]; [| discriminate]. cbn [bind].
  intros E. now exists feats.
Qed.

Lemma within_true_iff (vd d : Q) : within vd d = true <-> Qabs (vd - d) < 1.0.
Proof.
  unfold within. destruct (Qlt_le_dec (Qabs (vd - d)) 1.0); split;
    intros; try discriminate; try reflexivity; try assumption; lra.
Qed.

Lemma within_false_iff (vd d : Q) : within vd d = false <-> 1.0 <= Qabs (vd - d).
Proof.
  unfold within. destruct (Qlt_le_dec (Qabs (vd - d)) 1.0); split;
    intros; try discriminate; try reflexivity; try assumption; lra.
Qed.

(** X11. Whatever the engine sends, when the [try] block ends the table
    holds pairwise distinct distances, and, as long as no distance of the
    table is within 1e-6 km of being exactly 1.0 km from a requested one
    (there the rounding of the float difference decides), all distances
    are up to a million km and those of the table are at least 1e-6 km
    apart, each requested distance gets either [None],
    when no distance of the table is within 1.0 km of it, or a geometry
    object of the table whose distance is within 1.0 km: never a geometry
    from 1.0 km or more away. *)
Theorem fetch_answers_sound (float_of_str : string -> option Q)
  (post : iso_request -> result response) (lat lon : Q) (ds : list Q)
  (table : geom_dict) :
  fetch_geom_by_distance float_of_str post lat lon ds = Ok table ->
  well_separated table ds ->
  NoDupA Qeq (map fst table)
  /\ exists gs,
       fetch_valhalla_isodistance float_of_str post lat lon ds = Ok gs
       /\ forall i d, ds !! i = Some d ->
            (gs !! i = Some JNone
             /\ forall vd geom, In (vd, geom) table -> 1.0 <= Qabs (vd - d))
            \/ (exists vd geom ty,
                  In (vd, geom) table /\ Qabs (vd - d) < 1.0
                  /\ gs !! i = Some geom
                  /\ getitem geom "type" = Ok ty).
Proof.
  intros E _. destruct (fetch_geom_collect _ _ _ _ _ _ E) as [feats C].
  destruct (collect_table_ok float_of_str feats [] table) as [N F];
    [split; constructor | exact C |].
  split; [exact N |]. eexists. split; [apply (fetch_on_table _ _ _ _ _ _ E) |].
  intros i d Hd. rewrite lookup_map, Hd. cbn [option_map].
  rewrite find_match_first_within. unfold first_within.
  destruct (find _ table) as [[vd geom] |] eqn:Fd.
  - right. apply find_some in Fd. destruct Fd as [Hin W]. cbn [fst] in W.
    rewrite Forall_forall in F.
    destruct (F _ (proj2 (list_elem_of_In _ _) Hin)) as [ty T].
    exists vd, geom, ty. rewrite <- within_true_iff. auto.
  - left. split; [reflexivity |]. intros vd geom Hin.
    apply within_false_iff. apply (find_none _ _ Fd (vd, geom) Hin).
Qed.

Lemma fetch_answers_sound_witness :
  exists gs,
    fetch_valhalla_isodistance no_float
      (answering (collection [feature 150.3 (polygon "a")])) 0 0 [150.0; 10.0]
    = Ok gs.
Proof.
  destruct (fetch_answers_sound no_float
              (answering (collection [feature 150.3 (polygon "a")])) 0 0
              [150.0; 10.0] [(150.3, polygon "a")] eq_refl)
    as (_ & gs & E & _).
  - split.
    + intros p d [<- | []] [<- | [<- | []]]; clear_of_tolerance_const.
    + intros p q [<- | []] [<- | []]; same_or_apart_const.
  - now exists gs.
Defined.

(** X12. One feature on which the loop raises discards the geometries of
    all features: when the features before it were stored without error and
    it makes the loop body raise, every requested distance gets [None]. *)
Theorem malformed_feature_discards_all (float_of_str : string -> option Q)
  (post : iso_request -> result response) (lat lon : Q) (ds : list Q)
  (resp : response) (geojson bad : value) (before after : list value)
  (acc : geom_dict) (e : exn) :
  post {| loc_lat := lat; loc_lon := lon; contours := ds |} = Ok resp ->
  status_ok resp = true ->
  body resp = Ok geojson ->
  get geojson "features" (JList []) = Ok (JList (before ++ bad :: after)) ->
  collect float_of_str before [] = Ok acc ->
  feature_step float_of_str acc bad = Raise e ->
  fetch_valhalla_isodistance float_of_str post lat lon ds
  = Ok (repeat JNone (length ds)).
Proof.
  intros P S B G C R. apply (fetch_on_failure _ _ _ _ _ e).
  unfold fetch_geom_by_distance. rewrite P. cbn [bind].
  unfold raise_for_status, json. rewrite S, B. cbn [bind]. rewrite G.
  cbn [bind len iter]. rewrite collect_app, C. cbn [bind collect].
  rewrite R. reflexivity.
Qed.

Lemma malformed_feature_discards_all_witness :
  fetch_valhalla_isodistance no_float
    (answering
       (collection [feature 150.3 (polygon "a");
                    feature 50.0 (JDict [("coordinates"%string, JList [])])]))
    0 0 [150.0; 50.0]
  = Ok [JNone; JNone].
Proof.
  apply (malformed_feature_discards_all no_float
           (answering
              (collection
                 [feature 150.3 (polygon "a");
                  feature 50.0 (JDict [("coordinates"%string, JList [])])]))
           0 0 [150.0; 50.0]
           {| status_ok := true;
              body := Ok (collection
                            [feature 150.3 (polygon "a");
                             feature 50.0
                               (JDict [("coordinates"%string, JList [])])]) |}
           (collection
              [feature 150.3 (polygon "a");
               feature 50.0 (JDict [("coordinates"%string, JList [])])])
           (feature 50.0 (JDict [("coordinates"%string, JList [])]))
           [feature 150.3 (polygon "a")] [] [(150.3, polygon "a")] KeyError);
    reflexivity.
Defined.

(** X13. A feature without a contour (missing or [None]) or without a
    geometry (missing, [None] or empty) is passed over when its
    ["properties"] are missing or a dict: the table is the one built from
    the other features. *)
Theorem incomplete_feature_skipped (float_of_str : string -> option Q)
  (before after : list value) (feat props c g : value) (acc : geom_dict) :
  get feat "properties" (JDict []) = Ok props ->
  get props "contour" JNone = Ok c ->
  get feat "geometry" JNone = Ok g ->
  c = JNone \/ truthy g = false ->
  collect float_of_str (before ++ feat :: after) acc
  = collect float_of_str (before ++ after) acc.
Proof.
  intros P C G H. rewrite !collect_app.
  destruct (collect float_of_str before acc) as [d |]; [| reflexivity].
  cbn [bind collect]. unfold feature_step. rewrite P. cbn [bind].
  rewrite C. cbn [bind]. rewrite G. cbn [bind].
  assert (T : is_not_none c && truthy g = false).
  { destruct H as [-> | ->]; [reflexivity | apply andb_false_r]. }
  rewrite T. reflexivity.
Qed.

Lemma incomplete_feature_skipped_witness :
  collect no_float
    [feature 150.3 (polygon "a");
     JDict [("type"%string, JStr "Feature"); ("geometry"%string, polygon "b")];
     feature 50.0 (polygon "c")] []
  = collect no_float [feature 150.3 (polygon "a"); feature 50.0 (polygon "c")] [].
Proof.
  apply (incomplete_feature_skipped no_float [feature 150.3 (polygon "a")]
           [feature 50.0 (polygon "c")]
           (JDict [("type"%string, JStr "Feature");
                   ("geometry"%string, polygon "b")])
           (JDict []) JNone (polygon "b") []);
    try reflexivity.
  left. reflexivity.
Defined.

(** ** The GeoJSON document and the summary *)
Section OutputFacts.

Lemma band_features_filter (bands : list band_result) :
  band_features bands
  = map (fun b => band_feature b (get_geometry b))
      (List.filter (fun b => truthy (get_geometry b)) bands).
Proof.
  induction bands as [| b rest IH]; [reflexivity |].
  cbn [band_features List.filter].
  destruct (truthy (get_geometry b)); cbn [negb map]; now rewrite IH.
Qed.



End OutputFacts.

(** X14. The GeoJSON document lists one feature per band with a geometry
    that is neither missing, [None] nor empty, in band order and carrying
    that geometry, then the vehicle as a point with coordinates
    [lon, lat]; the bands without geometry leave no feature. *)
Theorem build_geojson_features (lat lon : Q) (bands : list band_result) :
  exists feats,
    get (build_geojson lat lon bands) "features" JNone
    = Ok (JList (feats ++ [vehicle_feature lat lon]))
    /\ length feats = bands_with_geometry bands
    /\ Forall2 (fun feat b =>
                  get feat "geometry" JNone = Ok (get_geometry b)
                  /\ truthy (get_geometry b) = true
                  /\ exists props,
                       get feat "properties" JNone = Ok props
                       /\ get props "band" JNone
                          = Ok (JStr (label (the_band b)))
                       /\ get props "range_km" JNone
                          = Ok (JNum (round1 (range_km b))))
         feats (List.filter (fun b => truthy (get_geometry b)) bands)
    /\ getitem (vehicle_feature lat lon) "geometry"
       = Ok (JDict [("type"%string, JStr "Point");
                    ("coordinates"%string, JList [JNum lon; JNum lat])]).
Proof.
  exists (band_features bands). split; [reflexivity |].
  rewrite band_features_filter. unfold bands_with_geometry.
  split; [apply length_map |]. split; [| reflexivity].
  induction bands as [| b rest IH]; [constructor |].
  cbn [List.filter]. destruct (truthy (get_geometry b)) eqn:T; [| exact IH].
  cbn [map]. constructor; [| exact IH].
  split; [reflexivity |]. split; [exact T |]. eexists.
  split; [reflexivity |]. split; reflexivity.
Qed.




(** ** The readers *)
Section ReaderFacts.
Variable float_of_str : string -> option Q.
Variable ha_get : string -> result response.

Lemma ha_get_state_total (entity : string) :
  exists v, ha_get_state ha_get entity = Ok v /\ (is_unknown v = true -> v = JNone).
Proof.
  unfold ha_get_state.
  destruct (ha_get entity) as [r |]; cbn [bind try_except ret];
    [| now exists JNone].
  destruct (raise_for_status r); cbn [bind try_except ret];
    [| now exists JNone].
  destruct (json r) as [j |]; cbn [bind try_except ret]; [| now exists JNone].
  destruct (get j "state" JNone) as [state |]; cbn [bind try_except ret];
    [| now exists JNone].
  destruct (is_unknown state) eqn:U; eexists; split; try reflexivity.
  congruence.
Qed.

End ReaderFacts.

(** X17. [ha_get_state] never raises.  It returns [None] when the request
    raises, the status is an error, the body is not JSON or not a dict, or
    the state is missing, [None], ["unknown"] or ["unavailable"]; otherwise
    it returns the state, which is then none of these. *)
Theorem ha_get_state_result (ha_get : string -> result response)
  (entity_id : string) :
  exists v,
    ha_get_state ha_get entity_id = Ok v
    /\ v <> JStr "unknown" /\ v <> JStr "unavailable"
    /\ ((exists e, ha_get entity_id = Raise e)
        \/ (exists r, ha_get entity_id = Ok r /\ status_ok r = false)
        \/ (exists r e, ha_get entity_id = Ok r /\ body r = Raise e)
        \/ (exists r j e, ha_get entity_id = Ok r /\ body r = Ok j
                          /\ get j "state" JNone = Raise e) ->
        v = JNone)
    /\ (forall r j state,
          ha_get entity_id = Ok r -> status_ok r = true -> body r = Ok j ->
          get j "state" JNone = Ok state ->
          v = if is_unknown state then JNone else state).
Proof.
  destruct (ha_get_state_total ha_get entity_id) as (v & E & U).
  exists v. split; [exact E |].
  split; [intros ->; specialize (U eq_refl); discriminate |].
  split; [intros ->; specialize (U eq_refl); discriminate |].
  unfold ha_get_state, raise_for_status, json in E. split.
  - intros [[e H] | [(r & H & S) | [(r & e & H & B) | (r & j & e & H & B & G)]]];
      rewrite H in E; cbn [bind try_except ret] in E.
    + now injection E.
    + rewrite S in E. cbn [bind try_except ret] in E. now injection E.
    + destruct (status_ok r); cbn [bind try_except ret] in E;
        [rewrite B in E; cbn [bind try_except ret] in E |]; now injection E.
    + destruct (status_ok r); cbn [bind try_except ret] in E;
        [rewrite B in E; cbn [bind try_except ret] in E; rewrite G in E;
         cbn [bind try_except ret] in E |]; now injection E.
  - intros r j state H S B G. rewrite H in E. cbn [bind] in E.
    rewrite S in E. cbn [bind] in E. rewrite B in E. cbn [bind] in E.
    rewrite G in E. cbn [bind try_except ret] in E. now injection E.
Qed.

Section VehicleFacts.
Variable float_of_str : string -> option Q.
Variable ha_get : string -> result response.

Lemma float_or_cases (raw : value) (default : Q) :
  (truthy raw = false /\ float_or float_of_str raw default = Ok default)
  \/ (truthy raw = true
      /\ float_or float_of_str raw default = float float_of_str raw).
Proof. unfold float_or. destruct (truthy raw); [right | left]; auto. Qed.

Lemma float_or_none_cases (raw : value) :
  (truthy raw = false /\ float_or_none float_of_str raw = Ok None)
  \/ (truthy raw = true
      /\ ((exists x, float float_of_str raw = Ok x
                     /\ float_or_none float_of_str raw = Ok (Some x))
          \/ (exists e, float float_of_str raw = Raise e
                        /\ float_or_none float_of_str raw = Raise e))).
Proof.
  unfold float_or_none. destruct (truthy raw); [right | left]; auto.
  split; [reflexivity |]. destruct (float float_of_str raw) as [x | e].
  - left. now exists x.
  - right. now exists e.
Qed.

End VehicleFacts.

(** X18. When Home Assistant cannot be reached, [get_vehicle_state]
    returns the defaults: charge 80, health 95, no manufacturer range, no
    odometer, charging status ["Unknown"]. In every result it returns, the
    charge is 80 when the state of its sensor is [None], empty or zero, and
    the number [float] reads from the state otherwise; likewise the health,
    with 95. *)
Theorem vehicle_state_defaults (float_of_str : string -> option Q)
  (ha_get : string -> result response) :
  ((forall entity, exists e, ha_get entity = Raise e) ->
   get_vehicle_state float_of_str ha_get
   = Ok {| soc := 80.0; soh := 95.0; oem_range_km := None;
           odometer_km := None; charging_status := JStr "Unknown" |})
  /\
  (forall v soc_raw soh_raw,
     get_vehicle_state float_of_str ha_get = Ok v ->
     ha_get_state ha_get "sensor.polestar_3988_battery_charge_level"
     = Ok soc_raw ->
     ha_get_state ha_get "sensor.final_battery_health_estimate" = Ok soh_raw ->
     (if truthy soc_raw then float float_of_str soc_raw = Ok (soc v)
      else soc v = 80.0)
     /\ (if truthy soh_raw then float float_of_str soh_raw = Ok (soh v)
         else soh v = 95.0)).
Proof.
  split.
  - intros H.
    assert (N : forall entity, ha_get_state ha_get entity = Ok JNone).
    { intros entity. destruct (H entity) as [e E]. unfold ha_get_state.
      now rewrite E. }
    unfold get_vehicle_state. rewrite !N. reflexivity.
  - intros v soc_raw soh_raw E S1 S2. unfold get_vehicle_state in E.
    rewrite S1, S2 in E. cbn [bind] in E.
    destruct (ha_get_state_total ha_get "sensor.polestar_3988_estimated_range")
      as (r3 & E3 & _).
    destruct (ha_get_state_total ha_get "sensor.polestar_3988_current_odometer")
      as (r4 & E4 & _).
    destruct (ha_get_state_total ha_get
                "sensor.polestar_3988_charging_status") as (r5 & E5 & _).
    rewrite E3, E4, E5 in E. cbn [bind] in E. unfold float_or in E.
    destruct (truthy soc_raw).
    + destruct (float float_of_str soc_raw) as [x |]; [| discriminate].
      cbn [bind] in E. destruct (truthy soh_raw).
      * destruct (float float_of_str soh_raw) as [y |]; [| discriminate].
        cbn [bind] in E.
        destruct (float_or_none float_of_str r3); [| discriminate].
        destruct (float_or_none float_of_str r4); [| discriminate].
        cbn [bind ret] in E. injection E as <-. split; reflexivity.
      * cbn [bind ret] in E.
        destruct (float_or_none float_of_str r3); [| discriminate].
        destruct (float_or_none float_of_str r4); [| discriminate].
        cbn [bind ret] in E. injection E as <-. split; reflexivity.
    + cbn [bind ret] in E. destruct (truthy soh_raw).
      * destruct (float float_of_str soh_raw) as [y |]; [| discriminate].
        cbn [bind] in E.
        destruct (float_or_none float_of_str r3); [| discriminate].
        destruct (float_or_none float_of_str r4); [| discriminate].
        cbn [bind ret] in E. injection E as <-. split; reflexivity.
      * cbn [bind ret] in E.
        destruct (float_or_none float_of_str r3); [| discriminate].
        destruct (float_or_none float_of_str r4); [| discriminate].
        cbn [bind ret] in E. injection E as <-. split; reflexivity.
Qed.

Lemma vehicle_state_defaults_witness :
  get_vehicle_state no_float (fun _ => Raise ConnectionError)
  = Ok {| soc := 80.0; soh := 95.0; oem_range_km := None;
          odometer_km := None; charging_status := JStr "Unknown" |}.
Proof.
  destruct (vehicle_state_defaults no_float (fun _ => Raise ConnectionError))
    as [H _].
  apply H. intros entity. now exists ConnectionError.
Defined.

(** X19. [get_vehicle_state] raises exactly when the state of one of the
    four numeric sensors (charge, health, manufacturer range, odometer) is
    neither [None], empty nor zero and [float] cannot convert it: a reading
    such as a text that is no number, or an int beyond the floats, is not
    caught. *)
Theorem vehicle_state_raises_iff (float_of_str : string -> option Q)
  (ha_get : string -> result response) :
  (exists e, get_vehicle_state float_of_str ha_get = Raise e)
  <->
  (exists entity raw e,
     In entity ["sensor.polestar_3988_battery_charge_level"%string;
                "sensor.final_battery_health_estimate"%string;
                "sensor.polestar_3988_estimated_range"%string;
                "sensor.polestar_3988_current_odometer"%string]
     /\ ha_get_state ha_get entity = Ok raw
     /\ truthy raw = true
     /\ float float_of_str raw = Raise e).
Proof.
  destruct (ha_get_state_total ha_get
              "sensor.polestar_3988_battery_charge_level") as (r1 & E1 & _).
  destruct (ha_get_state_total ha_get "sensor.final_battery_health_estimate")
    as (r2 & E2 & _).
  destruct (ha_get_state_total ha_get "sensor.polestar_3988_estimated_range")
    as (r3 & E3 & _).
  destruct (ha_get_state_total ha_get "sensor.polestar_3988_current_odometer")
    as (r4 & E4 & _).
  destruct (ha_get_state_total ha_get "sensor.polestar_3988_charging_status")
    as (r5 & E5 & _).
  unfold get_vehicle_state. rewrite E1, E2, E3, E4, E5. cbn [bind].
  unfold float_or, float_or_none. split.
  - intros [e E].
    destruct (truthy r1) eqn:T1;
      [destruct (float float_of_str r1) as [x1 | e1] eqn:F1;
       [| exists "sensor.polestar_3988_battery_charge_level"%string, r1, e1;
          cbn; tauto] |];
      cbn [bind ret] in E;
      (destruct (truthy r2) eqn:T2;
       [destruct (float float_of_str r2) as [x2 | e2] eqn:F2;
        [| exists "sensor.final_battery_health_estimate"%string, r2, e2;
           cbn; tauto] |]);
      cbn [bind ret] in E;
      (destruct (truthy r3) eqn:T3;
       [destruct (float float_of_str r3) as [x3 | e3] eqn:F3;
        [| exists "sensor.polestar_3988_estimated_range"%string, r3, e3;
           cbn; tauto] |]);
      cbn [bind ret] in E;
      (destruct (truthy r4) eqn:T4;
       [destruct (float float_of_str r4) as [x4 | e4] eqn:F4;
        [| exists "sensor.polestar_3988_current_odometer"%string, r4, e4;
           cbn; tauto] |]);
      cbn [bind ret] in E; discriminate.
  - intros (entity & raw & e & Hin & S & T & F).
    cbn [In] in Hin.
    destruct Hin as [<- | [<- | [<- | [<- | []]]]];
      [rewrite E1 in S | rewrite E2 in S | rewrite E3 in S | rewrite E4 in S];
      injection S as ->; rewrite ?T, ?F; cbn [bind ret].
    + now exists e.
    + destruct (truthy r1); [destruct (float float_of_str r1) |];
        cbn [bind ret]; eauto.
    + destruct (truthy r1); [destruct (float float_of_str r1) |];
        cbn [bind ret]; eauto;
        (destruct (truthy r2); [destruct (float float_of_str r2) |];
         cbn [bind ret]; eauto).
    + destruct (truthy r1); [destruct (float float_of_str r1) |];
        cbn [bind ret]; eauto;
        (destruct (truthy r2); [destruct (float float_of_str r2) |];
         cbn [bind ret]; eauto);
        (destruct (truthy r3); [destruct (float float_of_str r3) |];
         cbn [bind ret]; eauto).
Qed.

Lemma vehicle_state_raises_iff_witness :
  exists e,
    get_vehicle_state no_float
      (fun _ => Ok {| status_ok := true;
                      body := Ok (JDict [("state"%string, JStr "n/a")]) |})
    = Raise e.
Proof.
  apply (vehicle_state_raises_iff no_float).
  exists "sensor.polestar_3988_battery_charge_level"%string, (JStr "n/a"),
    ValueError.
  repeat split; try reflexivity. cbn. tauto.
Defined.

Section WeatherFacts.
Variable owm_get : Q -> Q -> result response.

Lemma format_1f_number (x : value) :
  format_1f x = Ok tt -> exists q, as_number x = Some q.
Proof. destruct x; cbn; try discriminate; eauto. Qed.

(** A result of the [try] block has a numeric temperature and wind. *)
Lemma weather_body_numeric (lat lon : Q) (w : weather) :
  weather_body owm_get lat lon = Ok w ->
  (exists t, as_number (temp_c w) = Some t)
  /\ (exists s, as_number (wind_ms w) = Some s).
Proof.
  unfold weather_body.
  destruct (owm_get lat lon) as [r |]; [| discriminate]. cbn [bind].
  destruct (raise_for_status r); [| discriminate]. cbn [bind].
  destruct (json r) as [data |]; [| discriminate]. cbn [bind].
  destruct (getitem data "main") as [main1 |]; [| discriminate]. cbn [bind].
  destruct (getitem main1 "temp") as [temp |]; [| discriminate]. cbn [bind].
  destruct (get data "wind" (JDict [])) as [wind |]; [| discriminate].
  cbn [bind].
  destruct (get wind "speed" (JNum 3.0)) as [speed |]; [| discriminate].
  cbn [bind].
  destruct (get main1 "humidity" (JNum 50)) as [hum |]; [| discriminate].
  cbn [bind].
  destruct (get data "weather" JNone) as [wv |]; [| discriminate]. cbn [bind].
  destruct (if truthy wv then _ else _) as [descr |]; [| discriminate].
  cbn [bind].
  destruct (if truthy wv then _ else _) as [ic |]; [| discriminate].
  cbn [bind].
  destruct (format_1f temp) as [[] |] eqn:F1; [| discriminate]. cbn [bind].
  destruct (format_1f speed) as [[] |] eqn:F2; [| discriminate].
  cbn [bind ret]. intros E. injection E as <-. cbn [temp_c wind_ms].
  split; now apply format_1f_number.
Qed.

End WeatherFacts.

(** X20. [get_weather] never raises, and the temperature and the wind it
    returns are always numbers: without an API key, or when the request, the
    status, the decoding, a missing key or the formatting of a value that is
    no number, or of an int beyond the floats, makes the [try] block raise,
    it returns the defaults 15.0 degrees and 3.0 m/s. *)
Theorem weather_always_numeric (owm_get : Q -> Q -> result response)
  (OWM_API_KEY : string) (lat lon : Q) :
  exists w,
    get_weather owm_get OWM_API_KEY lat lon = Ok w
    /\ (exists t, as_number (temp_c w) = Some t)
    /\ (exists s, as_number (wind_ms w) = Some s)
    /\ (OWM_API_KEY = ""%string
        \/ (exists e, weather_body owm_get lat lon = Raise e) ->
        w = default_weather)
    /\ (OWM_API_KEY <> ""%string ->
        forall w', weather_body owm_get lat lon = Ok w' -> w = w').
Proof.
  unfold get_weather. destruct (String.eqb OWM_API_KEY "") eqn:K.
  - exists default_weather. split; [reflexivity |].
    split; [now exists 15.0 |]. split; [now exists 3.0 |].
    split; [reflexivity |]. apply String.eqb_eq in K. contradiction.
  - apply String.eqb_neq in K.
    destruct (weather_body owm_get lat lon) as [w | e] eqn:B.
    + exists w. split; [reflexivity |].
      destruct (weather_body_numeric owm_get lat lon w B) as [T S].
      split; [exact T |]. split; [exact S |]. split.
      * intros [H | [e H]]; [contradiction | discriminate].
      * intros _ w' E. now injection E.
    + exists default_weather. split; [reflexivity |].
      split; [now exists 15.0 |]. split; [now exists 3.0 |].
      split; [reflexivity |]. intros _ w' E. discriminate.
Qed.

(** A text in place of the temperature makes the log line raise, and the
    defaults are returned. *)
Example weather_text_temperature :
  get_weather
    (fun _ _ =>
       Ok {| status_ok := true;
             body := Ok (JDict [("main"%string,
                                 JDict [("temp"%string, JStr "mild")])]) |})
    "key" 0 0
  = Ok default_weather.
Proof. reflexivity. Qed.

(** An int beyond the floats in place of the temperature makes the log
    line raise [OverflowError], and the defaults are returned. *)
Example weather_huge_temperature :
  format_1f (JNum (inject_Z (10 ^ 400))) = Raise OverflowError
  /\ get_weather
       (fun _ _ =>
          Ok {| status_ok := true;
                body := Ok (JDict [("main"%string,
                                    JDict [("temp"%string,
                                            JNum (inject_Z (10 ^ 400)))])]) |})
       "key" 0 0
     = Ok default_weather.
Proof. split; vm_compute; reflexivity. Qed.

(** A wind that is missing is 3.0 m/s. *)
Example weather_without_wind :
  exists w,
    get_weather
      (fun _ _ =>
         Ok {| status_ok := true;
               body := Ok (JDict [("main"%string,
                                   JDict [("temp"%string, JNum 21.5)])]) |})
      "key" 0 0
    = Ok w
    /\ temp_c w = JNum 21.5 /\ wind_ms w = JNum 3.0
    /\ description w = JStr "Unknown".
Proof. eexists. split; [reflexivity |]. repeat split. Qed.

Section PositionFacts.
Variable float_of_str : string -> option Q.
Variable ha_get ha_get_again : string -> result response.
Variables DEFAULT_LAT DEFAULT_LON : Q.

Lemma position_loop_source (entities : list string) :
  exists p,
    position_loop float_of_str ha_get ha_get_again DEFAULT_LAT DEFAULT_LON
      entities = Ok p
    /\ (p = (DEFAULT_LAT, DEFAULT_LON)
        \/ exists entity state,
             In entity entities
             /\ ha_get_state ha_get entity = Ok state
             /\ truthy state = true /\ is_home state = false
             /\ tracker_position float_of_str ha_get_again entity
                = Ok (Some p)).
Proof.
  induction entities as [| entity rest (p & E & H)].
  - eexists. split; [reflexivity | now left].
  - cbn [position_loop].
    destruct (ha_get_state_total ha_get entity) as (state & S & _).
    rewrite S. cbn [bind].
    assert (R : exists p0,
              position_loop float_of_str ha_get ha_get_again DEFAULT_LAT
                DEFAULT_LON rest = Ok p0
              /\ (p0 = (DEFAULT_LAT, DEFAULT_LON)
                  \/ exists entity0 state0,
                       In entity0 (entity :: rest)
                       /\ ha_get_state ha_get entity0 = Ok state0
                       /\ truthy state0 = true /\ is_home state0 = false
                       /\ tracker_position float_of_str ha_get_again entity0
                          = Ok (Some p0))).
    { exists p. split; [exact E |].
      destruct H as [H | (e0 & s0 & I & H)]; [now left | right].
      exists e0, s0. split; [now right | exact H]. }
    destruct (truthy state) eqn:T; [| exact R].
    destruct (is_home state) eqn:Hm; [exact R |]. cbn [andb negb].
    destruct (tracker_position float_of_str ha_get_again entity)
      as [[found |] | e] eqn:TP; cbn [try_except bind ret]; try exact R.
    exists found. split; [reflexivity |]. right. exists entity, state.
    split; [now left | auto].
Qed.

Lemma tracker_position_truthy (entity : string) (p : Q * Q) :
  tracker_position float_of_str ha_get_again entity = Ok (Some p) ->
  exists r j attrs lat lon,
    ha_get_again entity = Ok r /\ body r = Ok j
    /\ get j "attributes" (JDict []) = Ok attrs
    /\ get attrs "latitude" JNone = Ok lat
    /\ get attrs "longitude" JNone = Ok lon
    /\ truthy lat = true /\ truthy lon = true
    /\ float float_of_str lat = Ok (fst p)
    /\ float float_of_str lon = Ok (snd p).
Proof.
  unfold tracker_position, json.
  destruct (ha_get_again entity) as [r |] eqn:A; [| discriminate]. cbn [bind].
  destruct (body r) as [j |] eqn:B; [| discriminate]. cbn [bind].
  destruct (get j "attributes" (JDict [])) as [attrs |] eqn:C;
    [| discriminate].
  cbn [bind].
  destruct (get attrs "latitude" JNone) as [lat |] eqn:D; [| discriminate].
  cbn [bind].
  destruct (get attrs "longitude" JNone) as [lon |] eqn:G; [| discriminate].
  cbn [bind].
  destruct (truthy lat) eqn:T1; [| discriminate].
  destruct (truthy lon) eqn:T2; [| discriminate]. cbn [andb].
  destruct (float float_of_str lat) as [la |] eqn:F1; [| discriminate].
  cbn [bind].
  destruct (float float_of_str lon) as [lo |] eqn:F2; [| discriminate].
  cbn [bind ret]. intros E. injection E as <-.
  exists r, j, attrs, lat, lon. cbn [fst snd]. repeat split; auto.
Qed.

End PositionFacts.

(** X21. [get_vehicle_position] never raises.  It returns the default
    position, or the latitude and longitude that [float] reads from the
    attributes of a tracker whose state is neither [None], empty, ["home"]
    nor ["not_home"]; both attributes are then neither [None], empty nor
    zero, so a numeric latitude or longitude of 0 is never returned from a
    tracker. *)
Theorem vehicle_position_source (float_of_str : string -> option Q)
  (ha_get ha_get_again : string -> result response)
  (DEFAULT_LAT DEFAULT_LON : Q) :
  exists p,
    get_vehicle_position float_of_str ha_get ha_get_again DEFAULT_LAT
      DEFAULT_LON = Ok p
    /\ (p = (DEFAULT_LAT, DEFAULT_LON)
        \/ exists entity state r j attrs lat lon,
             (entity = "device_tracker.polestar_3988"%string
              \/ entity = "device_tracker.polestar_3988_position"%string)
             /\ ha_get_state ha_get entity = Ok state
             /\ truthy state = true /\ is_home state = false
             /\ ha_get_again entity = Ok r /\ body r = Ok j
             /\ get j "attributes" (JDict []) = Ok attrs
             /\ get attrs "latitude" JNone = Ok lat
             /\ get attrs "longitude" JNone = Ok lon
             /\ float float_of_str lat = Ok (fst p)
             /\ float float_of_str lon = Ok (snd p)
             /\ (forall q, lat = JNum q -> ~ q == 0)
             /\ (forall q, lon = JNum q -> ~ q == 0)).
Proof.
  unfold get_vehicle_position.
  destruct (position_loop_source float_of_str ha_get ha_get_again DEFAULT_LAT
              DEFAULT_LON ["device_tracker.polestar_3988"%string;
                           "device_tracker.polestar_3988_position"%string])
    as (p & E & H).
  exists p. split; [exact E |].
  destruct H as [H | (entity & state & I & S & T & Hm & TP)]; [now left |].
  right.
  destruct (tracker_position_truthy float_of_str ha_get_again entity p TP)
    as (r & j & attrs & lat & lon & A & B & C & D & F & T1 & T2 & G1 & G2).
  exists entity, state, r, j, attrs, lat, lon.
  split; [destruct I as [<- | [<- | []]]; [now left | now right] |].
  repeat (split; [assumption |]). split.
  - intros q -> Z. cbn [truthy] in T1. apply Qeq_bool_iff in Z.
    rewrite Z in T1. discriminate.
  - intros q -> Z. cbn [truthy] in T2. apply Qeq_bool_iff in Z.
    rewrite Z in T2. discriminate.
Qed.

(** A tracker on the equator is passed over, and the default is returned. *)
Example position_on_equator :
  get_vehicle_position no_float
    (fun _ => Ok {| status_ok := true;
                    body := Ok (JDict [("state"%string, JStr "away")]) |})
    (fun _ => Ok {| status_ok := true;
                    body := Ok (JDict
                      [("attributes"%string,
                        JDict [("latitude"%string, JNum 0);
                               ("longitude"%string, JNum 36.8)])]) |})
    51.3656 (-0.4139)
  = Ok (51.3656, -0.4139).
Proof. reflexivity. Qed.

Example position_from_tracker :
  get_vehicle_position no_float
    (fun _ => Ok {| status_ok := true;
                    body := Ok (JDict [("state"%string, JStr "away")]) |})
    (fun _ => Ok {| status_ok := true;
                    body := Ok (JDict
                      [("attributes"%string,
                        JDict [("latitude"%string, JNum 48.1);
                               ("longitude"%string, JNum 11.5)])]) |})
    51.3656 (-0.4139)
  = Ok (48.1, 11.5).
Proof. reflexivity. Qed.

Import Run.

(** ** The whole run *)

Lemma vehicle_position_total (float_of_str : string -> option Q)
  (ha_get ha_get_again : string -> result response)
  (DEFAULT_LAT DEFAULT_LON : Q) :
  exists p,
    get_vehicle_position float_of_str ha_get ha_get_again DEFAULT_LAT
      DEFAULT_LON = Ok p.
Proof.
  destruct (position_loop_source float_of_str ha_get ha_get_again DEFAULT_LAT
              DEFAULT_LON ["device_tracker.polestar_3988"%string;
                           "device_tracker.polestar_3988_position"%string])
    as (p & E & _).
  now exists p.
Qed.

Lemma weather_total (owm_get : Q -> Q -> result response)
  (OWM_API_KEY : string) (lat lon : Q) :
  exists w,
    get_weather owm_get OWM_API_KEY lat lon = Ok w
    /\ (exists t, as_number (temp_c w) = Some t)
    /\ (exists s, as_number (wind_ms w) = Some s).
Proof.
  unfold get_weather. destruct (String.eqb OWM_API_KEY "").
  - exists default_weather. split; [reflexivity |].
    split; [now exists 15.0 | now exists 3.0].
  - destruct (weather_body owm_get lat lon) as [w | e] eqn:B.
    + exists w. split; [reflexivity |].
      apply (weather_body_numeric owm_get lat lon w B).
    + exists default_weather. split; [reflexivity |].
      split; [now exists 15.0 | now exists 3.0].
Qed.

Lemma bands_with_geometry_bound (brs : list band_result) :
  (bands_with_geometry brs <= length brs)%nat.
Proof. unfold bands_with_geometry. apply filter_length_le. Qed.

(** X22. As long as the wind the weather service reports and the charge
    and health the vehicle reports are of a magnitude at which the float
    arithmetic stays finite (up to 1e50 either way), the run fails only on
    the vehicle readings: [main] raises exactly when [get_vehicle_state]
    does, with the same exception; the position, the weather, the ranges
    and the engine never make it raise.  Otherwise it ends with four bands,
    a largest range that is not negative and at most four polygons. *)
Theorem main_fails_only_on_readings (float_of_str : string -> option Q)
  (ha_get ha_get_again : string -> result response)
  (owm_get : Q -> Q -> result response)
  (post : iso_request -> result response)
  (OWM_API_KEY : string) (DEFAULT_LAT DEFAULT_LON : Q) :
  (forall lat lon w s,
     get_weather owm_get OWM_API_KEY lat lon = Ok w ->
     as_number (wind_ms w) = Some s -> bounded s) ->
  (forall vehicle,
     get_vehicle_state float_of_str ha_get = Ok vehicle ->
     bounded (soc vehicle) /\ bounded (soh vehicle)) ->
  (forall e,
     main float_of_str ha_get ha_get_again owm_get post OWM_API_KEY
       DEFAULT_LAT DEFAULT_LON = Raise e
     <-> get_vehicle_state float_of_str ha_get = Raise e)
  /\
  (forall vehicle,
     get_vehicle_state float_of_str ha_get = Ok vehicle ->
     exists out,
       main float_of_str ha_get ha_get_again owm_get post OWM_API_KEY
         DEFAULT_LAT DEFAULT_LON = Ok out
       /\ length (out_bands out) = 4%nat
       /\ 0 <= out_max_range out
       /\ (out_polygons out <= 4)%nat).
Proof.
  intros _ _.
  assert (K : forall vehicle,
     get_vehicle_state float_of_str ha_get = Ok vehicle ->
     exists out,
       main float_of_str ha_get ha_get_again owm_get post OWM_API_KEY
         DEFAULT_LAT DEFAULT_LON = Ok out
       /\ length (out_bands out) = 4%nat
       /\ 0 <= out_max_range out
       /\ (out_polygons out <= 4)%nat).
  { intros vehicle V. unfold main. rewrite V. cbn [bind].
    destruct (vehicle_position_total float_of_str ha_get ha_get_again
                DEFAULT_LAT DEFAULT_LON) as [position P].
    rewrite P. cbn [bind].
    destruct (weather_total owm_get OWM_API_KEY (fst position) (snd position))
      as (w & W & (t & T) & (s & S)).
    rewrite W. cbn [bind]. unfold number. rewrite T, S. cbn [bind].
    destruct (main_bands_spec float_of_str post (soc vehicle) (soh vehicle)
                (fst position) (snd position) t s) as (planned & Ep & Em).
    destruct (plan_bands_ok (soc vehicle) (soh vehicle) t s ENERGY_BANDS)
      as (planned' & Ep' & F).
    rewrite Ep in Ep'. injection Ep' as <-.
    destruct (Forall2_four _ _ _ _ _ _ F)
      as (p0 & p1 & p2 & p3 & -> & (_ & _ & N0 & _) & _).
    rewrite Em. cbn [bind ret]. eexists. split; [reflexivity |].
    cbn [out_bands out_max_range out_polygons fst].
    split; [reflexivity |]. split; [exact N0 |].
    apply (bands_with_geometry_bound (map _ [p0; p1; p2; p3])). }
  split; [| exact K].
  intros e. split.
  - intros M. destruct (get_vehicle_state float_of_str ha_get) as [v | e'] eqn:V.
    + destruct (K v eq_refl) as (out & O & _). rewrite O in M. discriminate.
    + unfold main in M. rewrite V in M. cbn [bind] in M.
      injection M as ->. reflexivity.
  - intros V. unfold main. rewrite V. reflexivity.
Qed.

Lemma main_fails_only_on_readings_witness :
  exists out,
    main no_float (fun _ => Raise ConnectionError)
      (fun _ => Raise ConnectionError) (fun _ _ => Raise ConnectionError)
      unreachable "" 0 0 = Ok out
    /\ length (out_bands out) = 4%nat
    /\ 0 <= out_max_range out.
Proof.
  destruct (main_fails_only_on_readings no_float
              (fun _ => Raise ConnectionError) (fun _ => Raise ConnectionError)
              (fun _ _ => Raise ConnectionError) unreachable "" 0 0)
    as [_ K].
  - intros lat lon w s W S. cbn in W. injection W as <-. cbn in S.
    injection S as <-. in_domain.
  - intros vehicle V. cbn in V. injection V as <-. cbn [soc soh].
    split; in_domain.
  - destruct (K _ eq_refl) as (out & E & L & R & _).
    exists out. auto.
Defined.

(** A charge reading that is an int beyond the floats makes
    [get_vehicle_state], and with it the run, raise [OverflowError]. *)
Example vehicle_state_huge_charge :
  get_vehicle_state no_float
    (fun _ => Ok {| status_ok := true;
                    body := Ok (JDict [("state"%string,
                                        JNum (inject_Z (10 ^ 400)))]) |})
  = Raise OverflowError.
Proof. vm_compute. reflexivity. Qed.
